(** * The project handlers of the registry server and the compile command

    A shallow embedding of the two source files of the repository:

    - the gRPC handlers [CreateProject], [DeleteProject], [GetProject],
      [ListProjects] and [UpdateProject] of package [server];
    - [ParentNameFromResourceName], [compileSpec] and [uploadBytesForSpec]
      of package [cmd].

    Go's [error] is [option err] ([None] is [nil]).  The datastore is an
    explicit state: a finite map of entities together with the schedule of
    faults the storage service is going to answer with.  Every handler maps
    a datastore to an outcome and the datastore it leaves behind. *)

From Stdlib Require Import Ascii String ZArith Lia.
From stdpp Require Import base option list gmap strings.

Open Scope Z_scope.

(** ** Status codes and errors *)

(** The members of [google.golang.org/grpc/codes] the handlers use. *)
Inductive Code := InvalidArgument | NotFound | AlreadyExists | Internal.

(** The non-nil error values that flow through the two packages. *)
Inductive err :=
  | ErrNoSuchEntity                       (* datastore.ErrNoSuchEntity *)
  | IteratorDone                          (* iterator.Done *)
  | Fault (msg : string)                  (* any other failure of a collaborator *)
  | StatusErr (c : Code) (msg : string).  (* status.Error(c, msg) *)

Abbreviation error := (option err).

#[global] Instance Code_eq_dec : EqDecision Code.
Proof. solve_decision. Defined.
#[global] Instance err_eq_dec : EqDecision err.
Proof. solve_decision. Defined.

(** [err.Error()] *)
Definition Error (e : err) : string :=
  match e with
  | ErrNoSuchEntity => "datastore: no such entity"
  | IteratorDone => "no more items in iterator"
  | Fault msg => msg
  | StatusErr _ msg => msg
  end.

(** [status.Error(c, msg)] *)
Definition status_Error (c : Code) (msg : string) : error := Some (StatusErr c msg).

(** The condition an error carries, if it is a status error. *)
Definition code_of (e : error) : option Code :=
  match e with
  | Some (StatusErr c _) => Some c
  | _ => None
  end.

(** Modelled from the spec: [internalError] is declared in another file of
    package [server].  Section 7: a fault
    "not otherwise classified" is "surfaced as a generic internal condition,
    original cause attached".  [DeleteProject] passes it the result of
    [client.Delete] on its only exit, so it lets a nil error through. *)
Definition internalError (e : error) : error :=
  match e with
  | None => None
  | Some x => status_Error Internal (Error x)
  end.

(** Modelled from the spec: [invalidArgumentError], declared next to
    [internalError]; the invalid-argument condition of section 7. *)
Definition invalidArgumentError (e : error) : error :=
  match e with
  | None => None
  | Some x => status_Error InvalidArgument (Error x)
  end.

(** What a Go function with a pointer and an [error] as results does: it
    returns both, or the goroutine panics. *)
Inductive outcome (A : Type) :=
  | Return (resp : option A) (e : error)
  | Panic.
Arguments Return {A} resp e.
Arguments Panic {A}.

(** The condition a call ends with: [None] for a nil error (success), for an
    error that is no status error, and for a panic. *)
Definition condition {A} (o : outcome A) : option Code :=
  match o with
  | Return _ e => code_of e
  | Panic => None
  end.

(** ** Resources and messages *)

Abbreviation Time := Z.

(** [models.Project], the stored entity. *)
Record Project := mkProject {
  ProjectID : string;
  DisplayName : string;
  Description : string;
  CreateTime : Time;
  UpdateTime : Time
}.

(** [rpc.Project], the wire message. *)
Record rpc_Project := mkRpcProject {
  msgName : string;
  msgDisplayName : string;
  msgDescription : string;
  msgCreateTime : Time;
  msgUpdateTime : Time
}.

#[global] Instance Project_eq_dec : EqDecision Project.
Proof. solve_decision. Defined.
#[global] Instance rpc_Project_eq_dec : EqDecision rpc_Project.
Proof. solve_decision. Defined.

Record CreateProjectRequest := {
  crProjectId : string;
  crProject : rpc_Project
}.
Record GetProjectRequest := { grName : string }.
Record DeleteProjectRequest := { drName : string }.
Record UpdateProjectRequest := { urProject : rpc_Project }.
Record ListProjectsRequest := {
  lrPageSize : Z;
  lrPageToken : string;
  lrFilter : string
}.
Record ListProjectsResponse := {
  Projects : list rpc_Project;
  NextPageToken : string
}.
(** [empty.Empty] *)
Inductive Empty := mkEmpty.

(** ** The datastore *)

(** [datastore.Key], with the two fields the handlers fill in. *)
Record Key := mkKey { Kind : string; Name : string }.

#[global] Instance Key_eq_dec : EqDecision Key.
Proof. solve_decision. Defined.
#[global] Instance Key_countable : Countable Key :=
  inj_countable' (fun k => (Kind k, Name k)) (fun p => mkKey p.1 p.2)
                 (fun k => match k with mkKey _ _ => eq_refl end).

(** The storage service as the handlers see it.  [entities] holds the
    records the handlers read and write; [descendants] lists the resource
    names of the records nested below projects (apis, versions, specs),
    which only [DeleteChildren] touches; [faults] is the schedule of the
    service's answers to the next fallible calls: [Some e] makes the call
    fail with [e], [None] (or an exhausted schedule) lets it through. *)
Record Datastore := mkDatastore {
  entities : gmap Key Project;
  descendants : list string;
  faults : list (option err)
}.

Definition next_fault (w : Datastore) : error :=
  match faults w with
  | f :: _ => f
  | [] => None
  end.

Definition advance (w : Datastore) : Datastore :=
  mkDatastore (entities w) (descendants w) (tail (faults w)).

Definition with_entities (m : gmap Key Project) (w : Datastore) : Datastore :=
  mkDatastore m (descendants w) (faults w).

(** [s.newDataStoreClient(ctx)]: the handle is the datastore itself. *)
Definition newDataStoreClient (w : Datastore) : error * Datastore :=
  (next_fault w, advance w).

(** [client.Get(ctx, k, dst)]: loads the entity into [dst]; a missing key is
    signalled by [ErrNoSuchEntity]. *)
Definition client_Get (k : Key) (dst : Project) (w : Datastore)
  : Project * error * Datastore :=
  match next_fault w with
  | Some f => (dst, Some f, advance w)
  | None =>
      match entities w !! k with
      | Some stored => (stored, None, advance w)
      | None => (dst, Some ErrNoSuchEntity, advance w)
      end
  end.

(** [client.Put(ctx, k, src)] *)
Definition client_Put (k : Key) (src : Project) (w : Datastore)
  : Key * error * Datastore :=
  match next_fault w with
  | Some f => (k, Some f, advance w)
  | None => (k, None, with_entities (<[k := src]> (entities w)) (advance w))
  end.

(** [client.Delete(ctx, k)]: deleting a key that holds nothing is not an
    error of the service. *)
Definition client_Delete (k : Key) (w : Datastore) : error * Datastore :=
  match next_fault w with
  | Some f => (Some f, advance w)
  | None => (None, with_entities (delete k (entities w)) (advance w))
  end.

(** [datastore.Query], as far as the handler builds it: the kind, the resume
    position (the number of records of the scan order already consumed) and
    the distinct flag. *)
Record Query := mkQuery { qKind : string; qStart : nat; qDistinct : bool }.

(** [datastore.NewQuery(kind)] *)
Definition datastore_NewQuery (kind : string) : Query := mkQuery kind 0 false.

(** [q.Distinct()] *)
Definition Distinct (q : Query) : Query := mkQuery (qKind q) (qStart q) true.

(** [datastore.Iterator]: the records still to be delivered and the resume
    position reached. *)
Record Iterator := mkIterator { pending : list Project; position : nat }.

(** The native scan order of a kind: the entities of that kind in the order
    of the map's keys. *)
Definition scan_order (kind : string) (w : Datastore) : list Project :=
  List.map snd
    (List.filter (fun kv => bool_decide (Kind (fst kv) = kind))
                 (map_to_list (entities w))).

(** [client.Run(ctx, q)]: the scan of [q]'s kind, resumed at [q]'s position. *)
Definition client_Run (q : Query) (w : Datastore) : Iterator :=
  mkIterator (drop (qStart q) (scan_order (qKind q) w)) (qStart q).

(** [it.Next(dst)]: the next record, [iterator.Done] when there is none
    left, or the fault the service answers with. *)
Definition it_Next (it : Iterator) (w : Datastore)
  : option Project * error * Iterator * Datastore :=
  match next_fault w with
  | Some f => (None, Some f, it, advance w)
  | None =>
      match pending it with
      | [] => (None, Some IteratorDone, it, advance w)
      | p :: rest => (Some p, None, mkIterator rest (S (position it)), advance w)
      end
  end.

(** ** The filter interface *)

(** [filterArgType] and [filterArg] of package [server]. *)
Inductive filterArgType := filterArgTypeString.
Record filterArg := mkFilterArg { argName : string; argType : filterArgType }.

(** A value of the expression library ([ref.Val], read through [Value()]). *)
Inductive Val :=
  | BoolVal (b : bool)
  | StringVal (s : string).

(** ** The collaborators left open

    Everything the handlers call whose code neither source file contains
    and whose behaviour the specification does not fix: constants, the
    syntax checks of package [models], the expression library behind
    [createFilterOperator], and the cursor codec.  A Go result pair of which
    the caller reads the value only when the error is nil is a sum here. *)
Class Collaborators := {
  (** [models.ProjectEntityName] *)
  ProjectEntityName : string;
  (** the identifier syntax enforced by [models] *)
  validateID : string -> error;
  (** the field validation inside [Project.Update] *)
  validateFields : rpc_Project -> error;
  (** the default and the ceiling of [boundPageSize] *)
  defaultPageSize : Z;
  maxPageSize : Z;
  (** [cel.Program], [createFilterOperator] and [prg.Eval] *)
  Program : Type;
  createFilterOperator : string -> list filterArg -> option Program + err;
  Eval : Program -> gmap string Val -> Val + err;
  (** [queryApplyCursor] and [iteratorGetCursor] *)
  queryApplyCursor : Query -> string -> Query + err;
  iteratorGetCursor : Iterator -> Z -> string + err
}.

(** ** Package [models] *)

Section Models.
Context `{Collaborators}.

Definition zeroProject : Project := mkProject "" "" "" 0 0.

(** [strings.TrimPrefix] that also reports whether the prefix was there. *)
Fixpoint strip_prefix (pre s : string) : option string :=
  match pre, s with
  | EmptyString, _ => Some s
  | String a pre', String b s' =>
      if Ascii.eqb a b then strip_prefix pre' s' else None
  | String _ _, EmptyString => None
  end.

(** Modelled from the spec: [models.NewProjectFromProjectID] is outside the
    two source files.  Section 4.4: Create "constructs a ResourceName from
    parent + id"; section 3: the identifier must match the defined syntax. *)
Definition NewProjectFromProjectID (projectID : string) : Project + err :=
  match validateID projectID with
  | Some e => inr e
  | None => inl (mkProject projectID "" "" 0 0)
  end.

(** Modelled from the spec: [models.NewProjectFromResourceName] is outside
    the two source files.  Section 4.1: the name of a project is
    [projects/{id}], one identifier segment, validated at construction. *)
Definition NewProjectFromResourceName (name : string) : Project + err :=
  match strip_prefix "projects/" name with
  | Some projectID => NewProjectFromProjectID projectID
  | None => inr (Fault "invalid project name")
  end.

(** Modelled from the spec: [Project.ResourceName], the [projects/{id}] of
    section 3, "reconstructible byte-for-byte from its segments". *)
Definition ResourceName (project : Project) : string :=
  "projects/" +:+ ProjectID project.

(** Modelled from the spec: [Project.Update] is outside the two source
    files.  Section 4.4: it "applies the supplied field mutations
    (preserving createTime, refreshing updateTime)"; a "failure during field
    application (e.g. an invalid field value)" is reported as an error.
    [now] is the instant the call reads from the clock. *)
Definition Project_Update (now : Time) (message : rpc_Project) (project : Project)
  : Project * error :=
  match validateFields message with
  | Some e => (project, Some e)
  | None =>
      (mkProject (ProjectID project) (msgDisplayName message)
                 (msgDescription message) (CreateTime project) now, None)
  end.

(** Modelled from the spec: [Project.Message], the "public representation"
    of a record (section 4.4). *)
Definition Project_Message (project : Project) : rpc_Project * error :=
  (mkRpcProject (ResourceName project) (DisplayName project)
                (Description project) (CreateTime project) (UpdateTime project),
   None).

(** Modelled from the spec: [Project.DeleteChildren] is outside the two
    source files.  Section 4.4: it deletes "every record whose key is the
    target's key prefixed with a separator"; section 7: faults of these
    deletions are swallowed. *)
Definition DeleteChildren (project : Project) (w : Datastore) : Datastore :=
  mkDatastore (entities w)
    (List.filter (fun n => negb (String.prefix (ResourceName project +:+ "/") n))
                 (descendants w))
    (faults w).

(** Modelled from the spec: [boundPageSize] is outside the two source files.
    Section 4.3: it "clamps a caller-requested page size into [1, MAX] using
    a fixed default when unspecified/non-positive and a fixed ceiling when
    the request exceeds it". *)
Definition boundPageSize (s : Z) : Z :=
  if s <=? 0 then defaultPageSize
  else if maxPageSize <? s then maxPageSize
  else s.

End Models.

(** ** Package [server]: the handlers *)

Section Handlers.
Context `{Collaborators}.

(** The key every handler builds: [&datastore.Key{Kind: ..., Name: name}]. *)
Definition project_key (name : string) : Key := mkKey ProjectEntityName name.

Definition CreateProject (now : Time) (request : CreateProjectRequest) (w : Datastore)
  : outcome rpc_Project * Datastore :=
  let '(err, w) := newDataStoreClient w in
  match err with
  | Some _ => (Return None (internalError err), w)
  | None =>
  match NewProjectFromProjectID (crProjectId request) with
  | inr e => (Return None (invalidArgumentError (Some e)), w)
  | inl project =>
  let k := project_key (ResourceName project) in
  (* fail if project already exists *)
  let '(existingProject, err, w) := client_Get k zeroProject w in
  match err with
  | None =>
      (Return None (status_Error AlreadyExists
                      (ResourceName project +:+ " already exists")), w)
  | Some _ =>
  (* err = project.Update(...): the next assignment to err overwrites it *)
  let '(project, err) := Project_Update now (crProject request) project in
  let project :=
    mkProject (ProjectID project) (DisplayName project) (Description project)
              (UpdateTime project) (UpdateTime project) in
  let '(k, err, w) := client_Put k project w in
  match err with
  | Some _ => (Return None (internalError err), w)
  | None =>
  let '(message, err) := Project_Message project in
  (Return (Some message) err, w)
  end end end end.

Definition DeleteProject (request : DeleteProjectRequest) (w : Datastore)
  : outcome Empty * Datastore :=
  let '(err, w) := newDataStoreClient w in
  match err with
  | Some _ => (Return None (internalError err), w)
  | None =>
  (* Validate name and create dummy project (we just need the ID fields). *)
  match NewProjectFromResourceName (drName request) with
  | inr e => (Return None (invalidArgumentError (Some e)), w)
  | inl project =>
  (* Delete children first and then delete the project. *)
  let w := DeleteChildren project w in
  let k := project_key (drName request) in
  let '(err, w) := client_Delete k w in
  (Return (Some mkEmpty) (internalError err), w)
  end end.

Definition GetProject (request : GetProjectRequest) (w : Datastore)
  : outcome rpc_Project * Datastore :=
  let '(err, w) := newDataStoreClient w in
  match err with
  | Some _ => (Return None (internalError err), w)
  | None =>
  match NewProjectFromResourceName (grName request) with
  | inr e => (Return None (invalidArgumentError (Some e)), w)
  | inl project =>
  let k := project_key (ResourceName project) in
  let '(project, err, w) := client_Get k project w in
  if decide (err = Some ErrNoSuchEntity) then
    (Return None (status_Error NotFound "not found"), w)
  else
  match err with
  | Some _ => (Return None (internalError err), w)
  | None =>
  let '(message, err) := Project_Message project in
  (Return (Some message) err, w)
  end end end.

Definition UpdateProject (now : Time) (request : UpdateProjectRequest) (w : Datastore)
  : outcome rpc_Project * Datastore :=
  let '(err, w) := newDataStoreClient w in
  match err with
  | Some _ => (Return None (internalError err), w)
  | None =>
  match NewProjectFromResourceName (msgName (urProject request)) with
  | inr e => (Return None (invalidArgumentError (Some e)), w)
  | inl project =>
  let k := project_key (ResourceName project) in
  let '(project, err, w) := client_Get k project w in
  match err with
  | Some _ => (Return None (status_Error NotFound "not found"), w)
  | None =>
  let '(project, err) := Project_Update now (urProject request) project in
  match err with
  | Some _ => (Return None (internalError err), w)
  | None =>
  let '(k, err, w) := client_Put k project w in
  match err with
  | Some _ => (Return None (internalError err), w)
  | None =>
  let '(message, err) := Project_Message project in
  (Return (Some message) err, w)
  end end end end end.

(** The schema [ListProjects] declares to [createFilterOperator]. *)
Definition project_filter_args : list filterArg :=
  [ mkFilterArg "project_id" filterArgTypeString;
    mkFilterArg "availability" filterArgTypeString ].

(** The map [ListProjects] hands to [prg.Eval] for a candidate record. *)
Definition eval_bindings (project : Project) : gmap string Val :=
  {[ "project_id" := StringVal (ProjectID project) ]}.

(** How the [for] loop of [ListProjects] is left: by a [return] (or a panic)
    in its body, or through its condition or its [break], with the [err] of
    the last [it.Next], the iterator and the messages gathered. *)
Inductive loop_exit :=
  | Returned (o : outcome ListProjectsResponse) (w : Datastore)
  | Fallthrough (err : error) (it : Iterator)
                (projectMessages : list rpc_Project) (w : Datastore).

(** The loop, by recursion on the records the iterator still holds; each
    round starts with the [it.Next] of the loop header. *)
Fixpoint for_loop (prg : option Program) (pageSize : Z)
    (pend : list Project) (pos : nat)
    (projectMessages : list rpc_Project) (w : Datastore) : loop_exit :=
  match next_fault w with
  | Some f => Fallthrough (Some f) (mkIterator pend pos) projectMessages (advance w)
  | None =>
  match pend with
  | [] => Fallthrough (Some IteratorDone) (mkIterator pend pos) projectMessages (advance w)
  | project :: rest =>
      let w := advance w in
      let pos := S pos in
      let keep :=
        let '(projectMessage, _) := Project_Message project in
        let projectMessages := projectMessages ++ [projectMessage] in
        if Z.of_nat (length projectMessages) =? pageSize
        then Fallthrough None (mkIterator rest pos) projectMessages w
        else for_loop prg pageSize rest pos projectMessages w in
      match prg with
      | Some prg' =>
          match Eval prg' (eval_bindings project) with
          | inr e => Returned (Return None (invalidArgumentError (Some e))) w
          | inl (BoolVal true) => keep
          | inl (BoolVal false) =>
              for_loop prg pageSize rest pos projectMessages w
          | inl _ => Returned Panic w       (* out.Value().(bool) *)
          end
      | None => keep
      end
  end end.

(** The datastore a loop exit carries. *)
Definition exit_store (x : loop_exit) : Datastore :=
  match x with
  | Returned _ w => w
  | Fallthrough _ _ _ w => w
  end.

Definition ListProjects (req : ListProjectsRequest) (w : Datastore)
  : outcome ListProjectsResponse * Datastore :=
  let '(err, w) := newDataStoreClient w in
  match err with
  | Some _ => (Return None (internalError err), w)
  | None =>
  let q := datastore_NewQuery ProjectEntityName in
  match queryApplyCursor q (lrPageToken req) with
  | inr e => (Return None (internalError (Some e)), w)
  | inl q =>
  match createFilterOperator (lrFilter req) project_filter_args with
  | inr e => (Return None (internalError (Some e)), w)
  | inl prg =>
  let it := client_Run (Distinct q) w in
  let pageSize := boundPageSize (lrPageSize req) in
  match for_loop prg pageSize (pending it) (position it) [] w with
  | Returned o w => (o, w)
  | Fallthrough err it projectMessages w =>
  if decide (err <> None /\ err <> Some IteratorDone) then
    (Return None (internalError err), w)
  else
  match iteratorGetCursor it (Z.of_nat (length projectMessages)) with
  | inr e => (Return None (internalError (Some e)), w)
  | inl token => (Return (Some (Build_ListProjectsResponse projectMessages token)) None, w)
  end end end end end.

(** *** The page in words

    What section 4.4 asks of the loop, stated on the list of records the
    scan delivers: the records the filter selects, up to the page size. *)

(** The verdict of the (possibly nil) program on a record, when evaluation
    yields a boolean. *)
Definition selected (prg : option Program) (project : Project) : option bool :=
  match prg with
  | None => Some true
  | Some prg' =>
      match Eval prg' (eval_bindings project) with
      | inl (BoolVal b) => Some b
      | _ => None
      end
  end.

Definition is_selected (prg : option Program) (project : Project) : bool :=
  match selected prg project with
  | Some true => true
  | _ => false
  end.

Definition page_of (prg : option Program) (pageSize : Z) (records : list Project)
  : list rpc_Project :=
  List.map (fun project => fst (Project_Message project))
    (take (Z.to_nat pageSize) (List.filter (is_selected prg) records)).

(** No fault is scheduled. *)
Definition quiet (w : Datastore) : Prop := Forall (fun f => f = None) (faults w).

(** None of the next [n] storage calls is scheduled to fail. *)
Definition calm (n : nat) (w : Datastore) : Prop :=
  Forall (fun f => f = None) (take n (faults w)).

(** The datastore after [n] storage calls that write nothing. *)
Fixpoint advance_by (n : nat) (w : Datastore) : Datastore :=
  match n with
  | O => w
  | S m => advance_by m (advance w)
  end.

End Handlers.

(** ** The service as a whole *)



(** ** A concrete set of collaborators

    One instance of [Collaborators], on which the handlers run by
    computation. *)



(** Identifiers: non-empty, lower-case letters, digits and dashes. *)
Definition id_char (c : ascii) : bool :=
  let n := nat_of_ascii c in
  ((97 <=? n) && (n <=? 122) || (48 <=? n) && (n <=? 57) || (n =? 45))%nat.

Definition demo_validateID (id : string) : error :=
  match list_ascii_of_string id with
  | [] => Some (Fault "invalid identifier")
  | cs => if forallb id_char cs then None else Some (Fault "invalid identifier")
  end.

(** Field values: a display name of at most 16 bytes. *)
Definition demo_validateFields (message : rpc_Project) : error :=
  if (String.length (msgDisplayName message) <=? 16)%nat then None
  else Some (Fault "invalid display name").

(** Compiled filters: one comparison of a field with a literal. *)
Inductive demo_Program := FieldEquals (field literal : string).

(** The text between two single quotes, when [s] is such a literal. *)
Definition unquote (s : string) : option string :=
  match s with
  | String "'"%char body =>
      let n := String.length body in
      match n with
      | O => None
      | S m =>
          if String.eqb (String.substring m 1 body) "'"
          then Some (String.substring 0 m body) else None
      end
  | _ => None
  end.

(** Modelled from the spec: [createFilterOperator] is declared in another
    file of package [server].  Section 4.2: an "empty expression compiles to
    an always-true predicate (no filtering)", here the nil program the
    handler tests for; compilation "rejects references to undeclared fields
    at compile time".  Of the grammar only [field == 'literal'] is read. *)
Definition demo_createFilterOperator (filter : string) (args : list filterArg)
  : option demo_Program + err :=
  if String.eqb filter "" then inl None
  else
    match String.index 0 " == " filter with
    | None => inr (Fault "filter: syntax error")
    | Some i =>
        let field := String.substring 0 i filter in
        let rest := String.substring (i + 4) (String.length filter - (i + 4)) filter in
        match unquote rest with
        | None => inr (Fault "filter: syntax error")
        | Some literal =>
            if existsb (fun a => String.eqb (argName a) field) args
            then inl (Some (FieldEquals field literal))
            else inr (Fault ("filter: undeclared reference to " +:+ field))
        end
    end.

(** Modelled from the spec: evaluation "binds each declared field to the
    value extracted from the candidate record via a caller-supplied
    field-name -> value map and must return a boolean"; a field the map does
    not bind is an evaluation fault. *)
Definition demo_Eval (prg : demo_Program) (vars : gmap string Val) : Val + err :=
  match prg with
  | FieldEquals field literal =>
      match vars !! field with
      | Some (StringVal s) => inl (BoolVal (String.eqb s literal))
      | Some _ => inr (Fault ("filter: type mismatch on " +:+ field))
      | None => inr (Fault ("filter: no such attribute " +:+ field))
      end
  end.

(** The cursor codec: the resume position [n] travels as [c:] followed by
    [n] strokes. *)
Fixpoint strokes (n : nat) : string :=
  match n with
  | O => ""
  | S m => String "|" (strokes m)
  end.

Fixpoint count_strokes (s : string) : option nat :=
  match s with
  | EmptyString => Some O
  | String c s' =>
      if Ascii.eqb c "|" then S <$> count_strokes s' else None
  end.

Definition encodeCursor (n : nat) : string := "c:" +:+ strokes n.

Definition decodeCursor (token : string) : nat + err :=
  match strip_prefix "c:" token with
  | Some body =>
      match count_strokes body with
      | Some n => inl n
      | None => inr (Fault "cursor: malformed token")
      end
  | None => inr (Fault "cursor: malformed token")
  end.

(** Modelled from the spec: [queryApplyCursor] is declared in another file
    of package [server].  Section 4.3: decoding the empty string "yields a
    start of scan resume position"; a malformed token fails. *)
Definition demo_queryApplyCursor (q : Query) (token : string) : Query + err :=
  if String.eqb token "" then inl q
  else
    match decodeCursor token with
    | inl n => inl (mkQuery (qKind q) n (qDistinct q))
    | inr e => inr e
    end.

(** Modelled from the spec: [iteratorGetCursor] is declared in another file
    of package [server].  Section 4.4: the continuation cursor comes "from
    the scan's current resume position and the count of records returned in
    this page; an empty token signals no more results". *)
Definition demo_iteratorGetCursor (it : Iterator) (l : Z) : string + err :=
  if 0 <? l then inl (encodeCursor (position it)) else inl "".

#[global] Instance demo : Collaborators := {|
  ProjectEntityName := "Project";
  validateID := demo_validateID;
  validateFields := demo_validateFields;
  defaultPageSize := 50;
  maxPageSize := 1000;
  Program := demo_Program;
  createFilterOperator := demo_createFilterOperator;
  Eval := demo_Eval;
  queryApplyCursor := demo_queryApplyCursor;
  iteratorGetCursor := demo_iteratorGetCursor
|}.

(** A second filter engine, for expressions that are a bare field name: the
    program is the name, its value on a record is whatever the map binds
    the name to. *)
Definition bare_createFilterOperator (filter : string) (args : list filterArg)
  : option string + err :=
  if String.eqb filter "" then inl None
  else if existsb (fun a => String.eqb (argName a) filter) args
       then inl (Some filter)
       else inr (Fault ("filter: undeclared reference to " +:+ filter)).

Definition bare_Eval (field : string) (vars : gmap string Val) : Val + err :=
  match vars !! field with
  | Some v => inl v
  | None => inr (Fault ("filter: no such attribute " +:+ field))
  end.

Definition bare_fields : Collaborators := {|
  ProjectEntityName := "Project";
  validateID := demo_validateID;
  validateFields := demo_validateFields;
  defaultPageSize := 50;
  maxPageSize := 1000;
  Program := string;
  createFilterOperator := bare_createFilterOperator;
  Eval := bare_Eval;
  queryApplyCursor := demo_queryApplyCursor;
  iteratorGetCursor := demo_iteratorGetCursor
|}.

(** A datastore with the project [demo] created at instant 100. *)
Definition demo_project : Project := mkProject "demo" "Demo" "" 100 100.

Definition one_project (fs : list (option err)) : Datastore :=
  mkDatastore {[ mkKey "Project" "projects/demo" := demo_project ]} [] fs.

Definition empty_store (fs : list (option err)) : Datastore :=
  mkDatastore ∅ [] fs.

(** A datastore with the projects [alpha] and [beta]. *)
Definition alpha_project : Project := mkProject "alpha" "Alpha" "" 10 10.
Definition beta_project : Project := mkProject "beta" "Beta" "" 20 25.

Definition two_projects (fs : list (option err)) : Datastore :=
  mkDatastore (<[ mkKey "Project" "projects/alpha" := alpha_project ]>
                 {[ mkKey "Project" "projects/beta" := beta_project ]}) [] fs.

(** ** Package [cmd]: the compile command *)

Module Cmd.

(** [strings.Split(s, sep)] for a one-byte separator: the parts between the
    separators, one more than there are separators. *)
Fixpoint Split (s : string) (sep : ascii) : list string :=
  match s with
  | EmptyString => [EmptyString]
  | String c s' =>
      if Ascii.eqb c sep then EmptyString :: Split s' sep
      else
        match Split s' sep with
        | part :: parts => String c part :: parts
        | [] => [String c EmptyString]
        end
  end.

(** [strings.Join(elems, sep)] *)
Fixpoint Join (elems : list string) (sep : string) : string :=
  match elems with
  | [] => EmptyString
  | [e] => e
  | e :: rest => e +:+ sep +:+ Join rest sep
  end.

(** The slice expression [s[lo:hi]] on a slice whose capacity is its length:
    [None] is the run-time panic for bounds out of range. *)
Definition slice {A} (s : list A) (lo hi : Z) : option (list A) :=
  if (0 <=? lo) && (lo <=? hi) && (hi <=? Z.of_nat (length s))
  then Some (take (Z.to_nat (hi - lo)) (drop (Z.to_nat lo) s))
  else None.

(** ParentNameFromResourceName returns the name of a resource's parent;
    [None] when it panics. *)
Definition ParentNameFromResourceName (name : string) : option string :=
  let parts := Split name "/" in
  match slice parts 0 (Z.of_nat (length parts) - 2) with
  | Some front => Some (Join front "/")
  | None => None
  end.

(** [rpc.Spec] and the two requests of the command. *)
Record Spec := mkSpec {
  specName : string;
  specStyle : string;
  specContents : list Byte.byte
}.
Record GetSpecRequest := mkGetSpecRequest { gsName : string; gsFull : bool }.
Record CreateSpecRequest := mkCreateSpecRequest {
  csParent : string;
  csSpecId : string;
  csSpec : Spec
}.

(** How a function of the command ends when it does not return: [log.Fatal]
    leaves the process, a failed bounds check panics. *)
Inductive abort := FatalExit | Panicked.

(** The command's effect on the registry is the sequence of [CreateSpec]
    requests it sends; a computation threads that log and either yields a
    value or aborts. *)
Definition Cmd (A : Type) : Type :=
  list CreateSpecRequest -> (A + abort) * list CreateSpecRequest.

Definition ret {A} (a : A) : Cmd A := fun log => (inl a, log).
Definition bind {A B} (m : Cmd A) (k : A -> Cmd B) : Cmd B :=
  fun log =>
    match m log with
    | (inl a, log') => k a log'
    | (inr x, log') => (inr x, log')
    end.
Definition stop {A} (x : abort) : Cmd A := fun log => (inr x, log).
(** An operation that panics when it has no value. *)
Definition orPanic {A} (o : option A) : Cmd A :=
  match o with
  | Some a => ret a
  | None => stop Panicked
  end.

Notation "x <- m ;; k" := (bind m (fun x => k))
  (at level 100, m at next level, right associativity).

Section Compile.

(** The collaborators of the command: the registry service behind the gapic
    client, the gnostic compiler, [proto.Marshal], the gzip writer, and the
    helpers [resourceNameOfSpec] and [getBytesForSpec] of package [cmd]. *)
Variable Document : Type.
Variable Info : Type.
Variable resourceNameOfSpec : list string -> string.
Variable client_GetSpec : GetSpecRequest -> Spec + err.
Variable client_CreateSpec : CreateSpecRequest -> error.
Variable getBytesForSpec : Spec -> list Byte.byte + err.
Variable ReadInfoFromBytes : string -> list Byte.byte -> Info + err.
Variable openapi_v2_NewDocument : Info -> Document + err.
Variable openapi_v3_NewDocument : Info -> Document + err.
Variable proto_Marshal : Document -> list Byte.byte * error.
(** [zw.Write] followed by [zw.Close] on a best-compression writer: the
    compressed bytes, or the error either of them reports. *)
Variable gzip : list Byte.byte -> list Byte.byte + err.

(** [client.CreateSpec(ctx, request)]: the request reaches the registry. *)
Definition send_CreateSpec (request : CreateSpecRequest) : Cmd error :=
  fun log => (inl (client_CreateSpec request), log ++ [request]).

Definition uploadBytesForSpec (parent specID style : string) (document : Document)
  : Cmd error :=
  (* gzip the spec before uploading it *)
  let '(messageData, _) := proto_Marshal document in
  match gzip messageData with
  | inr _ => stop FatalExit
  | inl buf =>
      let request := mkCreateSpecRequest parent specID (mkSpec "" style buf) in
      err <- send_CreateSpec request ;;
      match err with
      | Some _ =>
          (* if this fails, we should try calling UpdateSpec *)
          ret err
      | None => ret None
      end
  end.

(** One [if strings.HasPrefix(...)] block of [compileSpec]; [inl e] is the
    [return e] of the block, [inr tt] falls out of it. *)
Definition compile_block (spec : Spec)
    (NewDocument : Info -> Document + err) (specID : string)
  : Cmd (error + unit) :=
  match getBytesForSpec spec with
  | inr _ => ret (inl None)
  | inl data =>
  match ReadInfoFromBytes (specName spec) data with
  | inr e => ret (inl (Some e))
  | inl info =>
  match NewDocument info with
  | inr e => ret (inl (Some e))
  | inl document =>
  parent <- orPanic (ParentNameFromResourceName (specName spec)) ;;
  err <- uploadBytesForSpec parent specID (specStyle spec) document ;;
  match err with
  | Some _ => ret (inl err)
  | None => ret (inr tt)
  end end end end.

Definition compileSpec (segments : list string) : Cmd error :=
  rest <- orPanic (slice segments 1 (Z.of_nat (length segments))) ;;
  let name := resourceNameOfSpec rest in
  let request := mkGetSpecRequest name true in
  match client_GetSpec request with
  | inr e => ret (Some e)
  | inl spec =>
  r <- (if String.prefix "openapi/v2" (specStyle spec)
        then compile_block spec openapi_v2_NewDocument "swagger.pb"
        else ret (inr tt)) ;;
  match r with
  | inl e => ret e
  | inr _ =>
  r <- (if String.prefix "openapi/v3" (specStyle spec)
        then compile_block spec openapi_v3_NewDocument "openapi.pb"
        else ret (inr tt)) ;;
  match r with
  | inl e => ret e
  | inr _ => ret None
  end end end.

(** The collaborators of the command's entry point: [connection.NewClient]
    and the matches of [names.SpecRegexp()] on the argument ([None] is the
    nil slice of a name that does not match). *)
Variable connection_NewClient : error.
Variable SpecRegexp_FindAllStringSubmatch : string -> option (list (list string)).

(** The [Run] function of [compileCmd]; its value is the list of lines it
    prints with [log.Printf]. *)
Definition compileCmd_Run (args : list string) : Cmd (list string) :=
  match args with
  | [] => ret []
  | name :: _ =>
  match connection_NewClient with
  | Some _ => stop FatalExit
  | None =>
  match SpecRegexp_FindAllStringSubmatch name with
  | None => ret []
  | Some m =>
      segments <- orPanic (head m) ;;
      err <- compileSpec segments ;;
      match err with
      | Some e => ret [Error e]
      | None => ret []
      end
  end end end.

End Compile.

End Cmd.

(** ** A concrete registry for the command

    Collaborators on which the command runs by computation: a registry that
    holds one spec of each style, documents that are their own bytes, a
    marshaller that also reports an error, and a compression that copies. *)

Definition demo_spec_v2 : Cmd.Spec :=
  Cmd.mkSpec "projects/p/apis/a/versions/v/specs/s2" "openapi/v2+gzip" [Byte.x78].
Definition demo_spec_v3 : Cmd.Spec :=
  Cmd.mkSpec "projects/p/apis/a/versions/v/specs/s3" "openapi/v3+gzip" [Byte.x79].
Definition demo_spec_proto : Cmd.Spec :=
  Cmd.mkSpec "projects/p/apis/a/versions/v/specs/pb" "proto+zip" [Byte.x7a].
Definition demo_spec_orphan : Cmd.Spec :=
  Cmd.mkSpec "orphan" "openapi/v2" [Byte.x78].

Definition demo_GetSpec (request : Cmd.GetSpecRequest) : Cmd.Spec + err :=
  if String.eqb (Cmd.gsName request) "s2" then inl demo_spec_v2
  else if String.eqb (Cmd.gsName request) "s3" then inl demo_spec_v3
  else if String.eqb (Cmd.gsName request) "pb" then inl demo_spec_proto
  else if String.eqb (Cmd.gsName request) "orphan" then inl demo_spec_orphan
  else inr (StatusErr NotFound "not found").

Definition demo_ReadInfoFromBytes (name : string) (data : list Byte.byte)
  : list Byte.byte + err :=
  match data with
  | [] => inr (Fault "no document")
  | _ => inl data
  end.

Definition demo_compileSpec (getBytesForSpec : Cmd.Spec -> list Byte.byte + err)
  : list string -> Cmd.Cmd error :=
  Cmd.compileSpec (list Byte.byte) (list Byte.byte)
    (fun rest => Cmd.Join rest "/") demo_GetSpec (fun _ => None)
    getBytesForSpec demo_ReadInfoFromBytes inl inl
    (fun document => (document, Some (Fault "marshal: required field missing")))
    inl.

Definition demo_Run (args : list string) : Cmd.Cmd (list string) :=
  Cmd.compileCmd_Run (list Byte.byte) (list Byte.byte)
    (fun rest => Cmd.Join rest "/") demo_GetSpec (fun _ => None)
    (fun spec => inl (Cmd.specContents spec)) demo_ReadInfoFromBytes inl inl
    (fun document => (document, Some (Fault "marshal: required field missing")))
    inl None
    (fun name => if String.prefix "specs/" name
                 then Some [[name; String.substring 6 (String.length name - 6) name]]
                 else None)
    args.

(** * Properties *)

(** ** Resource names *)

Lemma strip_prefix_app (pre s t : string) :
  strip_prefix pre s = Some t -> s = pre +:+ t.
Proof.
  revert s; induction pre as [|a pre IH]; intros s Hs; simpl in *.
  - destruct s; injection Hs as <-; reflexivity.
  - destruct s as [|b s]; [discriminate|].
    destruct (Ascii.eqb_spec a b) as [->|]; [|discriminate].
    change (String b s = String b (pre +:+ t)). f_equal. now apply IH.
Qed.

Section HandlerFacts.
Context `{Collaborators}.

Lemma NewProjectFromProjectID_id (projectID : string) (project : Project) :
  NewProjectFromProjectID projectID = inl project ->
  project = mkProject projectID "" "" 0 0.
Proof.
  unfold NewProjectFromProjectID.
  destruct (validateID projectID); congruence.
Qed.

(** A name that parses is the name of the project it parses to. *)
Lemma ResourceName_parsed (name : string) (project : Project) :
  NewProjectFromResourceName name = inl project ->
  ResourceName project = name.
Proof.
  unfold NewProjectFromResourceName, ResourceName.
  destruct (strip_prefix "projects/" name) as [projectID|] eqn:Hs; [|discriminate].
  intros Hp. apply NewProjectFromProjectID_id in Hp. subst project.
  symmetry. now apply strip_prefix_app.
Qed.

(** ** The storage calls *)

Lemma entities_advance (w : Datastore) : entities (advance w) = entities w.
Proof. reflexivity. Qed.

Lemma client_Get_absent (k : Key) (dst : Project) (w : Datastore) :
  next_fault w = None -> entities w !! k = None ->
  client_Get k dst w = (dst, Some ErrNoSuchEntity, advance w).
Proof. intros Hf Hk. unfold client_Get. now rewrite Hf, Hk. Qed.

Lemma client_Get_present (k : Key) (dst stored : Project) (w : Datastore) :
  next_fault w = None -> entities w !! k = Some stored ->
  client_Get k dst w = (stored, None, advance w).
Proof. intros Hf Hk. unfold client_Get. now rewrite Hf, Hk. Qed.

Lemma client_Get_fault (k : Key) (dst : Project) (w : Datastore) (f : err) :
  next_fault w = Some f ->
  client_Get k dst w = (dst, Some f, advance w).
Proof. intros Hf. unfold client_Get. now rewrite Hf. Qed.

(** A read never changes what is stored, and reports no error only when it
    loaded the stored record. *)
Lemma client_Get_inv (k : Key) (dst p : Project) (e : error) (w w' : Datastore) :
  client_Get k dst w = (p, e, w') ->
  w' = advance w /\
  (e = None -> next_fault w = None /\ entities w !! k = Some p).
Proof.
  unfold client_Get.
  destruct (next_fault w); [intros [= <- <- <-]; split; [done|discriminate]|].
  destruct (entities w !! k) eqn:Hk; intros [= <- <- <-]; split; try done.
Qed.

Lemma client_Put_inv (k k' : Key) (src : Project) (e : error) (w w' : Datastore) :
  client_Put k src w = (k', e, w') ->
  k' = k /\
  match e with
  | None => entities w' = <[k := src]> (entities w)
  | Some _ => entities w' = entities w
  end.
Proof.
  unfold client_Put.
  destruct (next_fault w); intros [= <- <- <-]; split; done.
Qed.

End HandlerFacts.

(** ** Absent keys *)

(** C1, as written, at a project that was never created: [DeleteProject]
    answers with the empty acknowledgment and a nil error, which is success
    and not the not-found condition. *)
Lemma C1_delete_of_absent_key_succeeds :
  entities (empty_store []) !! project_key "projects/ghost" = None /\
  fst (DeleteProject {| drName := "projects/ghost" |} (empty_store []))
    = Return (Some mkEmpty) None /\
  condition (fst (DeleteProject {| drName := "projects/ghost" |} (empty_store [])))
    <> Some NotFound.
Proof.
  split; [reflexivity|].
  split; [vm_compute; reflexivity|vm_compute; discriminate].
Qed.

(** C1 (amended).  For a well-formed name whose key holds no record, once
    the storage client is there: [GetProject] returns not-found when the
    read is answered by the no-such-key signal and internal when it fails
    with any other fault; [UpdateProject] returns not-found whatever the
    read reports; neither writes.  [DeleteProject] makes no existence check:
    it returns the empty acknowledgment together with [internalError] of
    what the storage delete reported, which is success when the delete went
    through and internal when it faulted, and never not-found. *)
Theorem C1_absent_key `{Collaborators} (name : string) (project : Project) (w : Datastore) :
  NewProjectFromResourceName name = inl project ->
  entities w !! project_key name = None ->
  next_fault w = None ->
  (next_fault (advance w) = None ->
     GetProject {| grName := name |} w
       = (Return None (status_Error NotFound "not found"), advance (advance w)))
  /\ (forall f, next_fault (advance w) = Some f -> f <> ErrNoSuchEntity ->
     GetProject {| grName := name |} w
       = (Return None (status_Error Internal (Error f)), advance (advance w)))
  /\ (forall now message, msgName message = name ->
     UpdateProject now {| urProject := message |} w
       = (Return None (status_Error NotFound "not found"), advance (advance w)))
  /\ (fst (DeleteProject {| drName := name |} w)
       = Return (Some mkEmpty) (internalError (next_fault (advance w)))
     /\ code_of (internalError (next_fault (advance w))) <> Some NotFound).
Proof.
  intros Hparse Habsent Hclient.
  pose proof (ResourceName_parsed _ _ Hparse) as Hname.
  repeat split.
  - intros Hread. unfold GetProject, newDataStoreClient. simpl.
    rewrite Hclient, Hparse, Hname.
    rewrite client_Get_absent by (rewrite ?entities_advance; assumption).
    now rewrite decide_True.
  - intros f Hread Hf. unfold GetProject, newDataStoreClient. simpl.
    rewrite Hclient, Hparse, Hname.
    rewrite (client_Get_fault _ _ _ f) by assumption.
    rewrite decide_False by congruence. reflexivity.
  - intros now message Hm. unfold UpdateProject, newDataStoreClient. simpl.
    rewrite Hclient, Hm, Hparse, Hname.
    destruct (next_fault (advance w)) as [f|] eqn:Hread.
    + now rewrite (client_Get_fault _ _ _ f).
    + now rewrite client_Get_absent.
  - unfold DeleteProject, newDataStoreClient. simpl.
    rewrite Hclient, Hparse. unfold client_Delete.
    change (next_fault (DeleteChildren project (advance w)))
      with (next_fault (advance w)).
    now destruct (next_fault (advance w)).
  - destruct (next_fault (advance w)); simpl; congruence.
Qed.

Lemma C1_absent_key_witness :
  fst (GetProject {| grName := "projects/ghost" |} (empty_store []))
    = Return None (status_Error NotFound "not found")
  /\ fst (DeleteProject {| drName := "projects/ghost" |} (empty_store []))
    = Return (Some mkEmpty) None.
Proof.
  assert (Hp : NewProjectFromResourceName "projects/ghost"
               = inl (mkProject "ghost" "" "" 0 0)) by reflexivity.
  assert (Ha : entities (empty_store []) !! project_key "projects/ghost" = None)
    by reflexivity.
  destruct (C1_absent_key "projects/ghost" _ (empty_store []) Hp Ha eq_refl)
    as (Hget & _ & _ & Hdel & _).
  split.
  - now rewrite (Hget eq_refl).
  - exact Hdel.
Defined.

(** ** Creation *)

Section CreateFacts.
Context `{Collaborators}.

(** What a successful [CreateProject] has done: the identifier was
    accepted, and the record now stored under its key was written by this
    call, with equal timestamps. *)
Lemma CreateProject_success (now : Time) (request : CreateProjectRequest)
    (w w' : Datastore) (message : rpc_Project) :
  CreateProject now request w = (Return (Some message) None, w') ->
  exists project created,
    NewProjectFromProjectID (crProjectId request) = inl project /\
    entities w' = <[project_key (ResourceName project) := created]> (entities w) /\
    ResourceName created = ResourceName project /\
    CreateTime created = UpdateTime created /\
    (validateFields (crProject request) = None -> CreateTime created = now) /\
    message = fst (Project_Message created).
Proof.
  unfold CreateProject, newDataStoreClient. simpl.
  destruct (next_fault w); [discriminate|].
  destruct (NewProjectFromProjectID (crProjectId request)) as [project|] eqn:Hid;
    [|discriminate].
  destruct (client_Get _ zeroProject (advance w)) as [[existing e] w1] eqn:Hget.
  destruct e; [|discriminate].
  apply client_Get_inv in Hget as [-> _].
  destruct (Project_Update now (crProject request) project) as [updated e'] eqn:Hupd.
  destruct (client_Put _ _ (advance (advance w))) as [[k' e''] w2] eqn:Hput.
  apply client_Put_inv in Hput as [-> Hput].
  destruct e''; [discriminate|].
  intros [= <- <-].
  exists project, (mkProject (ProjectID updated) (DisplayName updated)
                     (Description updated) (UpdateTime updated) (UpdateTime updated)).
  split; [reflexivity|]. split; [exact Hput|].
  unfold Project_Update in Hupd.
  destruct (validateFields (crProject request));
    injection Hupd as <- <-; repeat split; try reflexivity; congruence.
Qed.


(** When the existence read itself faults, [CreateProject] takes the key for
    absent and writes over the record stored there. *)
Lemma CreateProject_read_fault (now : Time) (request : CreateProjectRequest)
    (project stored : Project) (f : err) (w : Datastore) :
  NewProjectFromProjectID (crProjectId request) = inl project ->
  entities w !! project_key (ResourceName project) = Some stored ->
  next_fault w = None ->
  next_fault (advance w) = Some f ->
  next_fault (advance (advance w)) = None ->
  exists written,
    entities (snd (CreateProject now request w))
      = <[project_key (ResourceName project) := written]> (entities w) /\
    CreateTime written = UpdateTime written /\
    fst (CreateProject now request w) = Return (Some (fst (Project_Message written))) None.
Proof.
  intros Hid Hk Hclient Hread Hput.
  unfold CreateProject, newDataStoreClient. simpl.
  rewrite Hclient, Hid, (client_Get_fault _ _ _ f) by assumption.
  destruct (Project_Update now (crProject request) project) as [updated e'].
  unfold client_Put. rewrite Hput. simpl. eauto.
Qed.

End CreateFacts.



(** ** Timestamps *)

Section Timestamps.
Context `{Collaborators}.







End Timestamps.

(** ** The scan loop *)

Section Loop.
Context `{Collaborators}.

Lemma quiet_next (w : Datastore) : quiet w -> next_fault w = None.
Proof.
  unfold quiet, next_fault. destruct (faults w); [done|].
  intros Hq. now inversion Hq.
Qed.

Lemma quiet_advance (w : Datastore) : quiet w -> quiet (advance w).
Proof.
  unfold quiet, advance. simpl. destruct (faults w); [done|].
  intros Hq. now inversion Hq.
Qed.

(** One round of the loop, by the answer of [it.Next] and the verdict of
    the filter. *)
Lemma for_loop_fault_now prg pageSize pend pos acc w f :
  next_fault w = Some f ->
  for_loop prg pageSize pend pos acc w
    = Fallthrough (Some f) (mkIterator pend pos) acc (advance w).
Proof. intros Hf. destruct pend; simpl; now rewrite Hf. Qed.

Lemma for_loop_done prg pageSize pos acc w :
  next_fault w = None ->
  for_loop prg pageSize [] pos acc w
    = Fallthrough (Some IteratorDone) (mkIterator [] pos) acc (advance w).
Proof. intros Hf. simpl. now rewrite Hf. Qed.

Lemma for_loop_skip prg pageSize project rest pos acc w :
  next_fault w = None ->
  selected prg project = Some false ->
  for_loop prg pageSize (project :: rest) pos acc w
    = for_loop prg pageSize rest (S pos) acc (advance w).
Proof.
  intros Hf Hsel. simpl. rewrite Hf. unfold selected in Hsel.
  destruct prg as [prg'|]; [|discriminate].
  destruct (Eval prg' (eval_bindings project)) as [[[]|]|]; congruence.
Qed.

Lemma for_loop_keep prg pageSize project rest pos acc w :
  next_fault w = None ->
  selected prg project = Some true ->
  for_loop prg pageSize (project :: rest) pos acc w
    = if Z.of_nat (length (acc ++ [fst (Project_Message project)])) =? pageSize
      then Fallthrough None (mkIterator rest (S pos))
             (acc ++ [fst (Project_Message project)]) (advance w)
      else for_loop prg pageSize rest (S pos)
             (acc ++ [fst (Project_Message project)]) (advance w).
Proof.
  intros Hf Hsel. simpl. rewrite Hf. unfold selected in Hsel.
  destruct prg as [prg'|]; [|reflexivity].
  destruct (Eval prg' (eval_bindings project)) as [[[]|]|]; congruence.
Qed.

(** An evaluation fault leaves the handler with invalid-argument, a value
    that is no boolean makes the type assertion panic. *)
Lemma for_loop_eval_fault prg' pageSize project rest pos acc w e :
  next_fault w = None ->
  Eval prg' (eval_bindings project) = inr e ->
  for_loop (Some prg') pageSize (project :: rest) pos acc w
    = Returned (Return None (status_Error InvalidArgument (Error e))) (advance w).
Proof. intros Hf He. simpl. now rewrite Hf, He. Qed.

Lemma for_loop_not_bool prg' pageSize project rest pos acc w s :
  next_fault w = None ->
  Eval prg' (eval_bindings project) = inl (StringVal s) ->
  for_loop (Some prg') pageSize (project :: rest) pos acc w
    = Returned Panic (advance w).
Proof. intros Hf He. simpl. now rewrite Hf, He. Qed.

(** The loop reads and never writes. *)
Lemma for_loop_entities prg pageSize pend :
  forall pos acc w,
    entities (exit_store (for_loop prg pageSize pend pos acc w)) = entities w.
Proof.
  induction pend as [|project rest IH]; intros pos acc w; simpl.
  - now destruct (next_fault w).
  - destruct (next_fault w); [reflexivity|].
    destruct prg as [prg'|].
    + destruct (Eval prg' (eval_bindings project)) as [[[]|]|]; try reflexivity.
      * destruct (_ =? _); [reflexivity|]. now rewrite IH.
      * now rewrite IH.
    + destruct (_ =? _); [reflexivity|]. now rewrite IH.
Qed.

(** The messages gathered never exceed a page size of at least one. *)
Lemma for_loop_bound prg pageSize pend :
  forall pos acc w err it msgs w',
    Z.of_nat (length acc) < pageSize ->
    for_loop prg pageSize pend pos acc w = Fallthrough err it msgs w' ->
    Z.of_nat (length msgs) <= pageSize.
Proof.
  induction pend as [|project rest IH]; intros pos acc w err it msgs w' Hacc; simpl.
  - destruct (next_fault w); intros [= <- <- <- <-]; lia.
  - destruct (next_fault w); [intros [= <- <- <- <-]; lia|].
    assert (Hkeep : forall x,
      (if Z.of_nat (length (acc ++ [x])) =? pageSize
       then Fallthrough None (mkIterator rest (S pos)) (acc ++ [x]) (advance w)
       else for_loop prg pageSize rest (S pos) (acc ++ [x]) (advance w))
        = Fallthrough err it msgs w' ->
      Z.of_nat (length msgs) <= pageSize).
    { intros x. destruct (Z.eqb_spec (Z.of_nat (length (acc ++ [x]))) pageSize) as [He|Hne].
      - intros [= <- <- <- <-]. lia.
      - apply IH. rewrite length_app in *. simpl in *. lia. }
    destruct prg as [prg'|].
    + destruct (Eval prg' (eval_bindings project)) as [[[]|]|]; try discriminate.
      * apply Hkeep.
      * now apply IH.
    + apply Hkeep.
Qed.

(** On a quiet scan whose records the filter all decides, the loop gathers
    the selected records in scan order until the page is full or the scan
    is exhausted. *)
Lemma for_loop_page prg pageSize pend :
  forall pos acc w,
    quiet w ->
    Forall (fun project => is_Some (selected prg project)) pend ->
    Z.of_nat (length acc) < pageSize ->
    exists err it w',
      for_loop prg pageSize pend pos acc w
        = Fallthrough err it
            (acc ++ List.map (fun project => fst (Project_Message project))
                      (take (Z.to_nat pageSize - length acc)%nat
                            (List.filter (is_selected prg) pend))) w'
      /\ (err = None \/ err = Some IteratorDone).
Proof.
  induction pend as [|project rest IH]; intros pos acc w Hq Hall Hacc.
  - rewrite for_loop_done by now apply quiet_next.
    simpl. rewrite take_nil, app_nil_r. eauto 6.
  - inversion Hall as [|? ? [b Hb] Hrest]; subst.
    pose proof (quiet_next _ Hq) as Hf. pose proof (quiet_advance _ Hq) as Hq'.
    simpl List.filter. unfold is_selected at 1. rewrite Hb.
    destruct b.
    + rewrite for_loop_keep by assumption.
      destruct (Z.of_nat (length acc) + 1 =? pageSize) eqn:Hfull;
        rewrite length_app, Nat2Z.inj_add; simpl length;
        change (Z.of_nat 1) with 1; rewrite Hfull.
      * apply Z.eqb_eq in Hfull.
        replace (Z.to_nat pageSize - length acc)%nat with 1%nat by lia.
        simpl. eauto 6.
      * apply Z.eqb_neq in Hfull.
        destruct (IH (S pos) (acc ++ [fst (Project_Message project)]) (advance w))
          as (err & it & w' & Heq & Herr); try assumption.
        { rewrite length_app. simpl. lia. }
        rewrite Heq. exists err, it, w'. split; [|exact Herr].
        f_equal. rewrite <- app_assoc. f_equal.
        rewrite length_app. simpl length.
        replace (Z.to_nat pageSize - length acc)%nat
          with (S (Z.to_nat pageSize - (length acc + 1)))%nat by lia.
        reflexivity.
    + rewrite for_loop_skip by assumption. now apply IH.
Qed.

(** A fault of the scan that arrives before the page is full ends the loop
    with that fault as its error. *)
Lemma for_loop_scan_fault prg pageSize pre rest f fs :
  forall pos acc w,
    faults w = replicate (length pre) None ++ Some f :: fs ->
    Forall (fun project => is_Some (selected prg project)) pre ->
    Z.of_nat (length acc) + Z.of_nat (length (List.filter (is_selected prg) pre))
      < pageSize ->
    exists it msgs w',
      for_loop prg pageSize (pre ++ rest) pos acc w = Fallthrough (Some f) it msgs w'.
Proof.
  induction pre as [|project pre IH]; intros pos acc w Hfs Hall Hroom.
  - rewrite for_loop_fault_now with (f := f); [eauto|].
    unfold next_fault. now rewrite Hfs.
  - inversion Hall as [|? ? [b Hb] Hpre]; subst.
    assert (Hf : next_fault w = None) by (unfold next_fault; now rewrite Hfs).
    assert (Hfs' : faults (advance w) = replicate (length pre) None ++ Some f :: fs)
      by (unfold advance; simpl; now rewrite Hfs).
    simpl in Hroom. unfold is_selected at 1 in Hroom. rewrite Hb in Hroom.
    simpl app. destruct b.
    + rewrite for_loop_keep by assumption.
      simpl in Hroom.
      destruct (Z.eqb_spec (Z.of_nat (length (acc ++ [fst (Project_Message project)])))
                  pageSize) as [He|Hne].
      * rewrite length_app in He. simpl in He. lia.
      * apply IH; try assumption. rewrite length_app. simpl. lia.
    + rewrite for_loop_skip by assumption. now apply IH.
Qed.

End Loop.

(** ** createTime and updateTime *)




(** ** Page tokens and filters *)

(** C4, as written, at the token [zz], which the cursor codec rejects:
    [ListProjects] returns the internal condition, not invalid-argument. *)
Lemma C4_bad_token_is_internal :
  demo_queryApplyCursor (datastore_NewQuery "Project") "zz"
    = inr (Fault "cursor: malformed token") /\
  fst (ListProjects {| lrPageSize := 10; lrPageToken := "zz"; lrFilter := "" |}
         (one_project []))
    = Return None (status_Error Internal "cursor: malformed token") /\
  condition (fst (ListProjects {| lrPageSize := 10; lrPageToken := "zz"; lrFilter := "" |}
                    (one_project [])))
    <> Some InvalidArgument.
Proof.
  split; [reflexivity|].
  split; [vm_compute; reflexivity|vm_compute; discriminate].
Qed.

(** C4 (amended).  When [queryApplyCursor] fails on the page token of the
    request, [ListProjects] returns no page and the internal condition that
    carries the decoding error; the storage client is the only storage call
    made, so no scan is started, from the beginning or elsewhere. *)
Theorem C4_bad_token `{Collaborators} (req : ListProjectsRequest) (w : Datastore) (e : err) :
  next_fault w = None ->
  queryApplyCursor (datastore_NewQuery ProjectEntityName) (lrPageToken req) = inr e ->
  ListProjects req w = (Return None (status_Error Internal (Error e)), advance w).
Proof.
  intros Hclient Hcursor.
  unfold ListProjects, newDataStoreClient. simpl.
  now rewrite Hclient, Hcursor.
Qed.

Lemma C4_bad_token_witness :
  ListProjects {| lrPageSize := 10; lrPageToken := "zz"; lrFilter := "" |}
    (one_project [])
  = (Return None (status_Error Internal "cursor: malformed token"),
     advance (one_project [])).
Proof.
  exact (C4_bad_token {| lrPageSize := 10; lrPageToken := "zz"; lrFilter := "" |}
           (one_project []) (Fault "cursor: malformed token") eq_refl eq_refl).
Defined.

(** C5, as written, at a filter on [name], a field the schema of
    [ListProjects] does not declare: compilation fails, and the handler
    returns the internal condition, not invalid-argument. *)
Lemma C5_undeclared_field_is_internal :
  demo_createFilterOperator "name == 'demo'" project_filter_args
    = inr (Fault "filter: undeclared reference to name") /\
  fst (ListProjects {| lrPageSize := 10; lrPageToken := ""; lrFilter := "name == 'demo'" |}
         (one_project []))
    = Return None (status_Error Internal "filter: undeclared reference to name") /\
  condition (fst (ListProjects
                    {| lrPageSize := 10; lrPageToken := ""; lrFilter := "name == 'demo'" |}
                    (one_project [])))
    <> Some InvalidArgument.
Proof.
  split; [reflexivity|].
  split; [vm_compute; reflexivity|vm_compute; discriminate].
Qed.

(** C5 (amended).  When compiling the filter of the request against the
    declared schema fails, as it does for a reference to an undeclared
    field, [ListProjects] returns no page and the internal condition that
    carries the compilation error; no scan is started, so no record is
    evaluated. *)
Theorem C5_filter_compile_error `{Collaborators}
    (req : ListProjectsRequest) (w : Datastore) (q : Query) (e : err) :
  next_fault w = None ->
  queryApplyCursor (datastore_NewQuery ProjectEntityName) (lrPageToken req) = inl q ->
  createFilterOperator (lrFilter req) project_filter_args = inr e ->
  ListProjects req w = (Return None (status_Error Internal (Error e)), advance w).
Proof.
  intros Hclient Hcursor Hfilter.
  unfold ListProjects, newDataStoreClient. simpl.
  now rewrite Hclient, Hcursor, Hfilter.
Qed.

Lemma C5_filter_compile_error_witness :
  ListProjects {| lrPageSize := 10; lrPageToken := ""; lrFilter := "name == 'demo'" |}
    (one_project [])
  = (Return None (status_Error Internal "filter: undeclared reference to name"),
     advance (one_project [])).
Proof.
  exact (C5_filter_compile_error
           {| lrPageSize := 10; lrPageToken := ""; lrFilter := "name == 'demo'" |}
           (one_project []) (datastore_NewQuery "Project")
           (Fault "filter: undeclared reference to name")
           eq_refl eq_refl eq_refl).
Defined.

(** C6.  The schema declares [availability], the map handed to [prg.Eval]
    binds [project_id] alone: on a scan that delivers a record, a filter on
    [availability] compiles and then fails in evaluation, and the list is
    aborted with invalid-argument instead of being evaluated with
    [availability] bound to the record's value. *)
Theorem C6_availability_unbound :
  In "availability" (List.map argName project_filter_args) /\
  (forall project, eval_bindings project !! "availability" = None) /\
  (forall project,
     eval_bindings project !! "project_id" = Some (StringVal (ProjectID project))) /\
  demo_createFilterOperator "availability == 'ga'" project_filter_args
    = inl (Some (FieldEquals "availability" "ga")) /\
  fst (ListProjects
         {| lrPageSize := 10; lrPageToken := ""; lrFilter := "availability == 'ga'" |}
         (one_project []))
    = Return None (status_Error InvalidArgument "filter: no such attribute availability").
Proof.
  split; [simpl; auto|].
  split; [intros project; reflexivity|].
  split; [intros project; reflexivity|].
  split; [reflexivity|vm_compute; reflexivity].
Qed.

(** C7.  When applying the fields of the request fails, [CreateProject] on
    an absent key drops that error: it writes the record and returns it with
    a nil error. *)
Theorem C7_create_ignores_field_error `{Collaborators}
    (now : Time) (request : CreateProjectRequest) (project : Project)
    (e : err) (w : Datastore) :
  NewProjectFromProjectID (crProjectId request) = inl project ->
  validateFields (crProject request) = Some e ->
  entities w !! project_key (ResourceName project) = None ->
  next_fault w = None ->
  next_fault (advance w) = None ->
  next_fault (advance (advance w)) = None ->
  fst (CreateProject now request w) = Return (Some (fst (Project_Message project))) None /\
  entities (snd (CreateProject now request w))
    = <[project_key (ResourceName project) := project]> (entities w).
Proof.
  intros Hid Hbad Habsent Hclient Hread Hput.
  pose proof (NewProjectFromProjectID_id _ _ Hid) as ->.
  unfold CreateProject, newDataStoreClient. simpl.
  rewrite Hclient, Hid.
  rewrite client_Get_absent by assumption.
  unfold Project_Update. rewrite Hbad.
  unfold client_Put. rewrite Hput. simpl. split; reflexivity.
Qed.

Lemma C7_create_ignores_field_error_witness :
  fst (CreateProject 300
         {| crProjectId := "fresh";
            crProject := mkRpcProject "" "a display name that is too long" "" 0 0 |}
         (empty_store []))
    = Return (Some (mkRpcProject "projects/fresh" "" "" 0 0)) None.
Proof.
  exact (proj1 (C7_create_ignores_field_error 300
           {| crProjectId := "fresh";
              crProject := mkRpcProject "" "a display name that is too long" "" 0 0 |}
           (mkProject "fresh" "" "" 0 0) (Fault "invalid display name")
           (empty_store []) eq_refl eq_refl eq_refl eq_refl eq_refl eq_refl)).
Defined.

(** ** Pages *)

Section Pages.
Context `{Collaborators}.

Lemma boundPageSize_positive (s : Z) :
  1 <= defaultPageSize -> 1 <= maxPageSize -> 1 <= boundPageSize s.
Proof.
  intros Hd Hm. unfold boundPageSize.
  destruct (Z.leb_spec s 0); [assumption|].
  destruct (Z.ltb_spec maxPageSize s); lia.
Qed.

(** A [return] inside the loop body never carries a page. *)
Lemma for_loop_returned prg pageSize pend :
  forall pos acc w o w',
    for_loop prg pageSize pend pos acc w = Returned o w' ->
    o = Panic \/ exists e, o = Return None e.
Proof.
  induction pend as [|project rest IH]; intros pos acc w o w'; simpl.
  - destruct (next_fault w); discriminate.
  - destruct (next_fault w); [discriminate|].
    destruct prg as [prg'|].
    + destruct (Eval prg' (eval_bindings project)) as [[[]|]|].
      * destruct (_ =? _); [discriminate|apply IH].
      * apply IH.
      * intros [= <- <-]. now left.
      * intros [= <- <-]. right. eauto.
    + destruct (_ =? _); [discriminate|apply IH].
Qed.

End Pages.

(** C8.  With a default and a ceiling of at least one: a page returned by
    [ListProjects] never holds more than [boundPageSize] of the requested
    size.  On a scan without faults whose records the filter all decides,
    the page is made of the records the filter selects, in scan order, up to
    that bound or to the end of the scan.  A fault of the scan other than
    [iterator.Done], arriving before the page is full, makes the call
    return the internal condition. *)
Theorem C8_page `{Collaborators} (req : ListProjectsRequest) (w : Datastore) :
  1 <= defaultPageSize -> 1 <= maxPageSize ->
  (forall resp e w',
     ListProjects req w = (Return (Some resp) e, w') ->
     Z.of_nat (length (Projects resp)) <= boundPageSize (lrPageSize req))
  /\
  (forall q prg,
     next_fault w = None -> quiet (advance w) ->
     queryApplyCursor (datastore_NewQuery ProjectEntityName) (lrPageToken req) = inl q ->
     createFilterOperator (lrFilter req) project_filter_args = inl prg ->
     Forall (fun project => is_Some (selected prg project))
            (pending (client_Run (Distinct q) (advance w))) ->
     let page := page_of prg (boundPageSize (lrPageSize req))
                   (pending (client_Run (Distinct q) (advance w))) in
     exists it,
       fst (ListProjects req w)
         = match iteratorGetCursor it (Z.of_nat (length page)) with
           | inl token => Return (Some (Build_ListProjectsResponse page token)) None
           | inr e => Return None (status_Error Internal (Error e))
           end)
  /\
  (forall q prg pre rest f fs,
     next_fault w = None ->
     queryApplyCursor (datastore_NewQuery ProjectEntityName) (lrPageToken req) = inl q ->
     createFilterOperator (lrFilter req) project_filter_args = inl prg ->
     pending (client_Run (Distinct q) (advance w)) = pre ++ rest ->
     faults (advance w) = replicate (length pre) None ++ Some f :: fs ->
     Forall (fun project => is_Some (selected prg project)) pre ->
     Z.of_nat (length (List.filter (is_selected prg) pre))
       < boundPageSize (lrPageSize req) ->
     f <> IteratorDone ->
     fst (ListProjects req w) = Return None (status_Error Internal (Error f))).
Proof.
  intros Hd Hm.
  pose proof (boundPageSize_positive (lrPageSize req) Hd Hm) as Hpos.
  repeat apply conj.
  - intros resp e w'.
    unfold ListProjects, newDataStoreClient. simpl.
    destruct (next_fault w); [discriminate|].
    destruct (queryApplyCursor _ _) as [q|]; [|discriminate].
    destruct (createFilterOperator _ _) as [prg|]; [|discriminate].
    destruct (for_loop _ _ _ _ _ _) as [o w1|err it msgs w1] eqn:Hloop.
    + apply for_loop_returned in Hloop as [->|[e' ->]]; discriminate.
    + apply for_loop_bound in Hloop; [|simpl; lia].
      destruct (decide _); [discriminate|].
      destruct (iteratorGetCursor _ _); [|discriminate].
      intros [= <- <- <-]. exact Hloop.
  - intros q prg Hclient Hquiet Hcursor Hfilter Hall page.
    destruct (for_loop_page prg (boundPageSize (lrPageSize req))
                (pending (client_Run (Distinct q) (advance w)))
                (position (client_Run (Distinct q) (advance w))) [] (advance w))
      as (err & it & w' & Hloop & Herr); [assumption|assumption|simpl; lia|].
    exists it.
    unfold ListProjects, newDataStoreClient. cbv beta iota zeta.
    rewrite Hclient, Hcursor, Hfilter, Hloop.
    rewrite decide_False by (destruct Herr as [-> | ->]; intros [? ?]; congruence).
    simpl. rewrite Nat.sub_0_r. fold (page_of prg (boundPageSize (lrPageSize req))
      (pending (client_Run (Distinct q) (advance w)))). fold page.
    now destruct (iteratorGetCursor _ _).
  - intros q prg pre rest f fs Hclient Hcursor Hfilter Hpend Hfs Hall Hroom Hf.
    destruct (for_loop_scan_fault prg (boundPageSize (lrPageSize req)) pre rest f fs
                (position (client_Run (Distinct q) (advance w))) [] (advance w))
      as (it & msgs & w' & Hloop); [assumption|assumption|simpl; lia|].
    unfold ListProjects, newDataStoreClient. cbv beta iota zeta.
    rewrite Hclient, Hcursor, Hfilter, Hpend, Hloop.
    rewrite decide_True by (split; congruence). reflexivity.
Qed.

Lemma C8_page_witness :
  (exists it,
     fst (ListProjects
            {| lrPageSize := 1; lrPageToken := ""; lrFilter := "project_id == 'demo'" |}
            (one_project []))
       = match iteratorGetCursor it 1 with
         | inl token =>
             Return (Some (Build_ListProjectsResponse
                             [mkRpcProject "projects/demo" "Demo" "" 100 100] token)) None
         | inr e => Return None (status_Error Internal (Error e))
         end)
  /\ fst (ListProjects {| lrPageSize := 1; lrPageToken := ""; lrFilter := "" |}
            (one_project [None; Some (Fault "deadline exceeded")]))
    = Return None (status_Error Internal "deadline exceeded").
Proof.
  split.
  - destruct (C8_page {| lrPageSize := 1; lrPageToken := "";
                         lrFilter := "project_id == 'demo'" |} (one_project []))
      as (_ & Hpage & _); [simpl; lia|simpl; lia|].
    assert (Hquiet : quiet (advance (one_project []))) by constructor.
    assert (Hall : Forall (fun project =>
                      is_Some (selected (Some (FieldEquals "project_id" "demo")) project))
                     (pending (client_Run (Distinct (datastore_NewQuery "Project"))
                                 (advance (one_project [])))))
      by (vm_compute; repeat constructor; eauto).
    destruct (Hpage (datastore_NewQuery "Project")
                (Some (FieldEquals "project_id" "demo"))
                eq_refl Hquiet eq_refl eq_refl Hall) as [it Hit].
    exists it. exact Hit.
  - destruct (C8_page {| lrPageSize := 1; lrPageToken := ""; lrFilter := "" |}
                (one_project [None; Some (Fault "deadline exceeded")]))
      as (_ & _ & Hfault); [simpl; lia|simpl; lia|].
    assert (Hall : Forall (fun project => is_Some (selected None project)) [])
      by constructor.
    assert (Hf : Fault "deadline exceeded" <> IteratorDone) by discriminate.
    exact (Hfault (datastore_NewQuery "Project") None [] [demo_project]
             (Fault "deadline exceeded") [] eq_refl eq_refl eq_refl eq_refl eq_refl
             Hall eq_refl Hf).
Defined.

(** ** Parent names *)

Section SplitJoin.
Variable sep : ascii.

Lemma Split_cons (s : string) : exists part parts, Cmd.Split s sep = part :: parts.
Proof.
  destruct s as [|c s]; simpl; [eauto|].
  destruct (Ascii.eqb c sep); [eauto|].
  destruct (Cmd.Split s sep); eauto.
Qed.

(** Without a separator the string is the only part. *)
Lemma Split_without_sep (s : string) :
  ~ In sep (list_ascii_of_string s) -> Cmd.Split s sep = [s].
Proof.
  induction s as [|c s IH]; simpl; [reflexivity|].
  intros Hin. destruct (Ascii.eqb_spec c sep) as [->|Hne]; [tauto|].
  rewrite IH by tauto. reflexivity.
Qed.

(** With a separator there are at least two parts. *)
Lemma Split_with_sep (s : string) :
  In sep (list_ascii_of_string s) -> (2 <= length (Cmd.Split s sep))%nat.
Proof.
  induction s as [|c s IH]; simpl; [tauto|].
  intros Hin. destruct (Ascii.eqb_spec c sep) as [->|Hne].
  - destruct (Split_cons s) as (part & parts & ->). simpl. lia.
  - destruct Hin as [Hc|Hin]; [congruence|].
    specialize (IH Hin).
    destruct (Cmd.Split s sep) as [|part parts]; simpl in *; lia.
Qed.

(** No part holds a separator. *)
Lemma Split_parts (s : string) :
  Forall (fun part => ~ In sep (list_ascii_of_string part)) (Cmd.Split s sep).
Proof.
  induction s as [|c s IH]; simpl.
  - constructor; [simpl; tauto|constructor].
  - destruct (Ascii.eqb_spec c sep) as [->|Hne].
    + constructor; [simpl; tauto|exact IH].
    + destruct (Cmd.Split s sep) as [|part parts].
      * constructor; [simpl; intuition congruence|constructor].
      * inversion IH; subst. constructor; [simpl; intuition congruence|assumption].
Qed.

(** Joining the parts with the separator gives the string back. *)
Lemma Join_Split (s : string) :
  Cmd.Join (Cmd.Split s sep) (String sep EmptyString) = s.
Proof.
  induction s as [|c s IH]; simpl; [reflexivity|].
  destruct (Ascii.eqb_spec c sep) as [->|Hne].
  - destruct (Split_cons s) as (part & parts & Hs). rewrite Hs in *.
    change (String sep (Cmd.Join (part :: parts) (String sep EmptyString))
            = String sep s).
    now rewrite IH.
  - destruct (Split_cons s) as (part & parts & Hs). rewrite Hs in *.
    destruct parts as [|part' parts].
    + simpl in *. now rewrite IH.
    + change (String c (Cmd.Join (part :: part' :: parts) (String sep EmptyString))
              = String c s).
      now rewrite IH.
Qed.

End SplitJoin.

(** A list of at least two elements ends in two elements. *)
Lemma last_two {A} (l : list A) :
  (2 <= length l)%nat ->
  exists front a b, l = front ++ [a; b] /\ length front = (length l - 2)%nat.
Proof.
  induction l as [|x l IH]; simpl; [lia|].
  intros Hlen. destruct l as [|y l]; [simpl in Hlen; lia|].
  destruct l as [|z l].
  - exists [], x, y. split; reflexivity.
  - destruct IH as (front & a & b & Heq & Hfront); [simpl; lia|].
    exists (x :: front), a, b. rewrite Heq. split; [reflexivity|].
    simpl. rewrite length_app. simpl. lia.
Qed.

(** C9.  On a name that contains a slash the function returns: the parts
    of the name end in two slash-free segments, and the result is the name
    with these two segments removed.  On a name without a slash, such as
    [projects] or the empty string, the slice bounds are out of range and
    the function panics. *)
Theorem C9_parent_name (name : string) :
  (In "/"%char (list_ascii_of_string name) ->
   exists front a b,
     Cmd.Split name "/" = front ++ [a; b] /\
     name = Cmd.Join (front ++ [a; b]) "/" /\
     ~ In "/"%char (list_ascii_of_string a) /\
     ~ In "/"%char (list_ascii_of_string b) /\
     Cmd.ParentNameFromResourceName name = Some (Cmd.Join front "/"))
  /\
  (~ In "/"%char (list_ascii_of_string name) ->
   Cmd.Split name "/" = [name] /\
   Cmd.ParentNameFromResourceName name = None).
Proof.
  split.
  - intros Hin.
    pose proof (Split_with_sep "/" name Hin) as Hlen.
    destruct (last_two _ Hlen) as (front & a & b & Hparts & Hfront).
    pose proof (Split_parts "/" name) as Hfree. rewrite Hparts in Hfree.
    apply Forall_app in Hfree as [_ Hfree].
    inversion Hfree as [|? ? Ha Hfree']; subst.
    inversion Hfree' as [|? ? Hb _]; subst.
    exists front, a, b. split; [exact Hparts|].
    split; [rewrite <- Hparts; symmetry; apply Join_Split|].
    split; [exact Ha|]. split; [exact Hb|].
    unfold Cmd.ParentNameFromResourceName, Cmd.slice.
    rewrite Hparts, length_app. simpl length.
    replace ((0 <=? 0) && (0 <=? Z.of_nat (length front + 2) - 2)
             && (Z.of_nat (length front + 2) - 2 <=? Z.of_nat (length front + 2)))
      with true by (symmetry; rewrite !andb_true_iff, !Z.leb_le; lia).
    replace (Z.to_nat (Z.of_nat (length front + 2) - 2 - 0)) with (length front) by lia.
    change (Z.to_nat 0) with 0%nat. rewrite drop_0. now rewrite take_app_length.
  - intros Hnot. pose proof (Split_without_sep "/" name Hnot) as Hparts.
    split; [exact Hparts|].
    unfold Cmd.ParentNameFromResourceName. now rewrite Hparts.
Qed.

Lemma C9_parent_name_witness :
  Cmd.ParentNameFromResourceName "projects/p/apis/a" = Some "projects/p"
  /\ Cmd.ParentNameFromResourceName "projects" = None
  /\ Cmd.ParentNameFromResourceName "" = None.
Proof.
  split; [|split].
  - destruct (proj1 (C9_parent_name "projects/p/apis/a"))
      as (front & a & b & Hparts & _ & _ & _ & ->).
    + simpl. tauto.
    + change (Cmd.Split "projects/p/apis/a" "/")
        with (["projects"; "p"] ++ ["apis"; "a"]) in Hparts.
      apply app_inj_2 in Hparts as [<- _]; reflexivity.
  - apply (proj2 (C9_parent_name "projects")). simpl. intuition discriminate.
  - apply (proj2 (C9_parent_name "")). simpl. tauto.
Defined.

(** ** The compile command *)

Section CompileFacts.
Variables Document Info : Type.
Variable resourceNameOfSpec : list string -> string.
Variable client_GetSpec : Cmd.GetSpecRequest -> Cmd.Spec + err.
Variable client_CreateSpec : Cmd.CreateSpecRequest -> error.
Variable getBytesForSpec : Cmd.Spec -> list Byte.byte + err.
Variable ReadInfoFromBytes : string -> list Byte.byte -> Info + err.
Variables openapi_v2_NewDocument openapi_v3_NewDocument : Info -> Document + err.
Variable proto_Marshal : Document -> list Byte.byte * error.
Variable gzip : list Byte.byte -> list Byte.byte + err.

(** A block whose fetch fails returns nil and sends nothing. *)
Lemma compile_block_fetch_error spec NewDocument specID e log :
  getBytesForSpec spec = inr e ->
  Cmd.compile_block Document Info client_CreateSpec getBytesForSpec
    ReadInfoFromBytes proto_Marshal gzip spec NewDocument specID log
  = (inl (inl None), log).
Proof.
  intros Hfetch. unfold Cmd.compile_block.
  now rewrite Hfetch.
Qed.

(** C10.  Once [GetSpec] has delivered a spec whose style starts with
    [openapi/v2] or [openapi/v3], a failure of [getBytesForSpec] makes
    [compileSpec] return nil: the error is dropped, and no [CreateSpec]
    request has been sent. *)
Theorem C10_fetch_error_returns_nil
    (segments rest : list string) (spec : Cmd.Spec) (e : err)
    (log : list Cmd.CreateSpecRequest) :
  Cmd.slice segments 1 (Z.of_nat (length segments)) = Some rest ->
  client_GetSpec (Cmd.mkGetSpecRequest (resourceNameOfSpec rest) true) = inl spec ->
  String.prefix "openapi/v2" (Cmd.specStyle spec) = true
    \/ String.prefix "openapi/v3" (Cmd.specStyle spec) = true ->
  getBytesForSpec spec = inr e ->
  Cmd.compileSpec Document Info resourceNameOfSpec client_GetSpec client_CreateSpec
    getBytesForSpec ReadInfoFromBytes openapi_v2_NewDocument openapi_v3_NewDocument
    proto_Marshal gzip segments log
  = (inl None, log).
Proof.
  intros Hrest Hget Hstyle Hfetch.
  unfold Cmd.compileSpec, Cmd.bind, Cmd.orPanic.
  rewrite Hrest. unfold Cmd.ret at 1. rewrite Hget.
  destruct (String.prefix "openapi/v2" (Cmd.specStyle spec)) eqn:Hv2.
  - now rewrite (compile_block_fetch_error _ _ _ e).
  - destruct Hstyle as [Hv|Hv3]; [discriminate|].
    unfold Cmd.ret at 1. rewrite Hv3.
    now rewrite (compile_block_fetch_error _ _ _ e).
Qed.

End CompileFacts.

Lemma C10_fetch_error_returns_nil_witness :
  Cmd.compileSpec unit unit
    (fun rest => Cmd.Join rest "/")
    (fun request => inl (Cmd.mkSpec (Cmd.gsName request) "openapi/v3+gzip" []))
    (fun _ => None)
    (fun _ => inr (Fault "gzip: invalid header"))
    (fun _ _ => inl tt) (fun _ => inl tt) (fun _ => inl tt)
    (fun _ => ([], None)) (fun data => inl data)
    ["projects/p/apis/a/versions/v/specs/s"; "projects"; "p"] []
  = (inl None, []).
Proof.
  apply (C10_fetch_error_returns_nil unit unit) with
    (rest := ["projects"; "p"])
    (spec := Cmd.mkSpec "projects/p" "openapi/v3+gzip" [])
    (e := Fault "gzip: invalid header").
  - reflexivity.
  - reflexivity.
  - right. reflexivity.
  - reflexivity.
Defined.

(** * Further properties of the handlers *)

(** ** Failures before the work starts *)

(** X1.  When the storage client cannot be obtained, each of the five
    handlers returns no response and the internal condition that carries the
    client's error, and makes no further storage call. *)
Theorem client_failure_is_internal `{Collaborators} (f : err) (w : Datastore) :
  next_fault w = Some f ->
  (forall now request,
     CreateProject now request w
       = (Return None (status_Error Internal (Error f)), advance w))
  /\ (forall request,
     DeleteProject request w
       = (Return None (status_Error Internal (Error f)), advance w))
  /\ (forall request,
     GetProject request w
       = (Return None (status_Error Internal (Error f)), advance w))
  /\ (forall request,
     ListProjects request w
       = (Return None (status_Error Internal (Error f)), advance w))
  /\ (forall now request,
     UpdateProject now request w
       = (Return None (status_Error Internal (Error f)), advance w)).
Proof.
  intros Hf. repeat split; intros;
    unfold CreateProject, DeleteProject, GetProject, ListProjects, UpdateProject,
      newDataStoreClient; cbv beta iota zeta; now rewrite Hf.
Qed.

Lemma client_failure_is_internal_witness :
  ListProjects {| lrPageSize := 5; lrPageToken := ""; lrFilter := "" |}
    (one_project [Some (Fault "no credentials")])
  = (Return None (status_Error Internal "no credentials"), one_project []).
Proof.
  destruct (client_failure_is_internal (Fault "no credentials")
              (one_project [Some (Fault "no credentials")]) eq_refl)
    as (_ & _ & _ & Hlist & _).
  exact (Hlist {| lrPageSize := 5; lrPageToken := ""; lrFilter := "" |}).
Defined.

(** X2.  A project id that [NewProjectFromProjectID] rejects, or a name that
    [NewProjectFromResourceName] rejects, makes Create, Get, Update and
    Delete return the invalid-argument condition that carries the parse
    error; the datastore is not read or written. *)
Theorem malformed_name_is_invalid_argument `{Collaborators} (w : Datastore) :
  next_fault w = None ->
  (forall now request e,
     NewProjectFromProjectID (crProjectId request) = inr e ->
     CreateProject now request w
       = (Return None (status_Error InvalidArgument (Error e)), advance w))
  /\ (forall request e,
     NewProjectFromResourceName (grName request) = inr e ->
     GetProject request w
       = (Return None (status_Error InvalidArgument (Error e)), advance w))
  /\ (forall now request e,
     NewProjectFromResourceName (msgName (urProject request)) = inr e ->
     UpdateProject now request w
       = (Return None (status_Error InvalidArgument (Error e)), advance w))
  /\ (forall request e,
     NewProjectFromResourceName (drName request) = inr e ->
     DeleteProject request w
       = (Return None (status_Error InvalidArgument (Error e)), advance w)).
Proof.
  intros Hclient. repeat split; intros;
    unfold CreateProject, DeleteProject, GetProject, UpdateProject,
      newDataStoreClient; cbv beta iota zeta;
    match goal with Hparse : _ = inr _ |- _ => now rewrite Hclient, Hparse end.
Qed.

Lemma malformed_name_is_invalid_argument_witness :
  DeleteProject {| drName := "apis/demo" |} (one_project [])
  = (Return None (status_Error InvalidArgument "invalid project name"),
     one_project []).
Proof.
  destruct (malformed_name_is_invalid_argument (one_project []) eq_refl)
    as (_ & _ & _ & Hdelete).
  exact (Hdelete {| drName := "apis/demo" |} (Fault "invalid project name") eq_refl).
Defined.

(** ** Reading back what was written *)

Section ReadBack.
Context `{Collaborators}.

Lemma strip_prefix_append (pre s : string) : strip_prefix pre (pre +:+ s) = Some s.
Proof.
  induction pre as [|a pre IH]; [now destruct s|].
  change (strip_prefix (String a pre) (String a (pre +:+ s)) = Some s).
  simpl. now rewrite Ascii.eqb_refl.
Qed.

(** The name of an accepted project parses back to its identifier. *)
Lemma NewProjectFromResourceName_accepted (projectID : string) (project : Project) :
  NewProjectFromProjectID projectID = inl project ->
  NewProjectFromResourceName (ResourceName project) = inl project.
Proof.
  intros Hid. pose proof (NewProjectFromProjectID_id _ _ Hid) as ->.
  unfold NewProjectFromResourceName, ResourceName. simpl ProjectID.
  now rewrite strip_prefix_append.
Qed.

(** A read of a stored record, by a name that parses, returns its message. *)
Lemma GetProject_stored (name : string) (project stored : Project) (w : Datastore) :
  NewProjectFromResourceName name = inl project ->
  entities w !! project_key name = Some stored ->
  next_fault w = None ->
  next_fault (advance w) = None ->
  GetProject {| grName := name |} w
    = (Return (Some (fst (Project_Message stored))) None, advance (advance w)).
Proof.
  intros Hparse Hk Hclient Hread.
  unfold GetProject, newDataStoreClient. cbv beta iota zeta.
  simpl grName. rewrite Hclient, Hparse, (ResourceName_parsed _ _ Hparse).
  rewrite (client_Get_present _ _ stored) by assumption.
  rewrite decide_False by discriminate. reflexivity.
Qed.

(** What a successful [UpdateProject] has written and returned. *)
Lemma UpdateProject_written (now : Time) (request : UpdateProjectRequest)
    (w w' : Datastore) (message : rpc_Project) :
  UpdateProject now request w = (Return (Some message) None, w') ->
  exists parsed old,
    NewProjectFromResourceName (msgName (urProject request)) = inl parsed /\
    entities w !! project_key (msgName (urProject request)) = Some old /\
    let new := mkProject (ProjectID old) (msgDisplayName (urProject request))
                 (msgDescription (urProject request)) (CreateTime old) now in
    entities w' = <[project_key (msgName (urProject request)) := new]> (entities w) /\
    message = fst (Project_Message new).
Proof.
  unfold UpdateProject, newDataStoreClient. cbv beta iota zeta.
  destruct (next_fault w); [discriminate|].
  destruct (NewProjectFromResourceName _) as [parsed|] eqn:Hparse; [|discriminate].
  rewrite (ResourceName_parsed _ _ Hparse).
  destruct (client_Get _ parsed (advance w)) as [[old e] w1] eqn:Hget.
  destruct e; [discriminate|].
  apply client_Get_inv in Hget as [-> Hold].
  destruct (Hold eq_refl) as [_ Hk]. rewrite entities_advance in Hk.
  unfold Project_Update.
  destruct (validateFields (urProject request)); [discriminate|].
  destruct (client_Put _ _ _) as [[k' e] w2] eqn:Hput.
  apply client_Put_inv in Hput as [-> Hput].
  destruct e; [discriminate|].
  intros [= <- <-]. exists parsed, old. repeat split; assumption.
Qed.

End ReadBack.

(** X3.  After a successful [CreateProject], a [GetProject] of the created
    project's name (with the client obtained and the read answered) returns
    exactly the message the create returned. *)
Theorem create_then_get `{Collaborators}
    (now : Time) (request : CreateProjectRequest) (w w1 : Datastore)
    (message : rpc_Project) :
  CreateProject now request w = (Return (Some message) None, w1) ->
  next_fault w1 = None ->
  next_fault (advance w1) = None ->
  GetProject {| grName := msgName message |} w1
    = (Return (Some message) None, advance (advance w1)).
Proof.
  intros Hcreate Hclient Hread.
  apply CreateProject_success in Hcreate
    as (project & created & Hid & Hw1 & Hname & _ & _ & ->).
  simpl msgName. rewrite Hname.
  apply (GetProject_stored _ project created).
  - now apply NewProjectFromResourceName_accepted with (projectID := crProjectId request).
  - rewrite Hw1. apply lookup_insert_eq.
  - exact Hclient.
  - exact Hread.
Qed.

Lemma create_then_get_witness :
  GetProject {| grName := "projects/demo" |} (one_project [])
  = (Return (Some (mkRpcProject "projects/demo" "Demo" "" 100 100)) None,
     one_project []).
Proof.
  assert (Hcreate : CreateProject 100
                      {| crProjectId := "demo";
                         crProject := mkRpcProject "" "Demo" "" 0 0 |}
                      (empty_store [])
                    = (Return (Some (mkRpcProject "projects/demo" "Demo" "" 100 100)) None,
                       one_project []))
    by (vm_compute; reflexivity).
  exact (create_then_get _ _ _ _ _ Hcreate eq_refl eq_refl).
Defined.

(** X4.  A successful [UpdateProject] returns a message with the display
    name and description of the request, the createTime the record had and
    the instant of the call as updateTime; a following [GetProject] of the
    same name returns that very message. *)
Theorem update_then_get `{Collaborators}
    (now : Time) (request : UpdateProjectRequest) (w w1 : Datastore)
    (message : rpc_Project) :
  UpdateProject now request w = (Return (Some message) None, w1) ->
  (exists old,
     entities w !! project_key (msgName (urProject request)) = Some old /\
     msgDisplayName message = msgDisplayName (urProject request) /\
     msgDescription message = msgDescription (urProject request) /\
     msgCreateTime message = CreateTime old /\
     msgUpdateTime message = now)
  /\ (next_fault w1 = None -> next_fault (advance w1) = None ->
      GetProject {| grName := msgName (urProject request) |} w1
        = (Return (Some message) None, advance (advance w1))).
Proof.
  intros Hupdate.
  apply UpdateProject_written in Hupdate
    as (parsed & old & Hparse & Hold & Hw1 & ->).
  split.
  - exists old. repeat split; try reflexivity. exact Hold.
  - intros Hclient Hread.
    apply (GetProject_stored _ parsed); try assumption.
    rewrite Hw1. apply lookup_insert_eq.
Qed.

Lemma update_then_get_witness :
  fst (GetProject {| grName := "projects/demo" |}
         (snd (UpdateProject 250
                 {| urProject := mkRpcProject "projects/demo" "Demo2" "new" 0 0 |}
                 (one_project []))))
  = Return (Some (mkRpcProject "projects/demo" "Demo2" "new" 100 250)) None.
Proof.
  assert (Hupdate : UpdateProject 250
                      {| urProject := mkRpcProject "projects/demo" "Demo2" "new" 0 0 |}
                      (one_project [])
                    = (Return (Some (mkRpcProject "projects/demo" "Demo2" "new" 100 250))
                         None,
                       snd (UpdateProject 250
                              {| urProject := mkRpcProject "projects/demo" "Demo2" "new" 0 0 |}
                              (one_project []))))
    by (vm_compute; reflexivity).
  destruct (update_then_get _ _ _ _ _ Hupdate) as [_ Hget].
  exact (f_equal fst (Hget eq_refl eq_refl)).
Defined.

(** ** Deleting *)






(** ** Updating and creating under faults *)

(** X7.  [UpdateProject] answers not-found to every failure of its read:
    also when the record is stored and the read failed for another reason.
    Nothing is written. *)
Theorem update_read_fault_is_not_found `{Collaborators}
    (now : Time) (request : UpdateProjectRequest) (project stored : Project)
    (f : err) (w : Datastore) :
  NewProjectFromResourceName (msgName (urProject request)) = inl project ->
  entities w !! project_key (msgName (urProject request)) = Some stored ->
  next_fault w = None ->
  next_fault (advance w) = Some f ->
  UpdateProject now request w
    = (Return None (status_Error NotFound "not found"), advance (advance w)).
Proof.
  intros Hparse Hstored Hclient Hread.
  unfold UpdateProject, newDataStoreClient. cbv beta iota zeta.
  rewrite Hclient, Hparse.
  now rewrite (client_Get_fault _ _ _ f).
Qed.

Lemma update_read_fault_is_not_found_witness :
  UpdateProject 250 {| urProject := mkRpcProject "projects/demo" "Demo2" "" 0 0 |}
    (one_project [None; Some (Fault "deadline exceeded")])
  = (Return None (status_Error NotFound "not found"), one_project []).
Proof.
  exact (update_read_fault_is_not_found 250
           {| urProject := mkRpcProject "projects/demo" "Demo2" "" 0 0 |}
           (mkProject "demo" "" "" 0 0) demo_project (Fault "deadline exceeded")
           (one_project [None; Some (Fault "deadline exceeded")])
           eq_refl eq_refl eq_refl eq_refl).
Defined.

(** X8.  When applying the fields fails in [UpdateProject], the call returns
    the internal condition that carries the error of the field application,
    and [client.Put] is not called: the stored record is unchanged. *)
Theorem update_field_error_is_internal `{Collaborators}
    (now : Time) (request : UpdateProjectRequest) (project stored : Project)
    (e : err) (w : Datastore) :
  NewProjectFromResourceName (msgName (urProject request)) = inl project ->
  entities w !! project_key (msgName (urProject request)) = Some stored ->
  validateFields (urProject request) = Some e ->
  next_fault w = None ->
  next_fault (advance w) = None ->
  UpdateProject now request w
    = (Return None (status_Error Internal (Error e)), advance (advance w)).
Proof.
  intros Hparse Hstored Hbad Hclient Hread.
  unfold UpdateProject, newDataStoreClient. cbv beta iota zeta.
  rewrite Hclient, Hparse, (ResourceName_parsed _ _ Hparse).
  rewrite (client_Get_present _ _ stored) by assumption.
  unfold Project_Update. now rewrite Hbad.
Qed.

Lemma update_field_error_is_internal_witness :
  UpdateProject 250
    {| urProject := mkRpcProject "projects/demo" "a display name that is too long" "" 0 0 |}
    (one_project [])
  = (Return None (status_Error Internal "invalid display name"), one_project []).
Proof.
  exact (update_field_error_is_internal 250
           {| urProject :=
                mkRpcProject "projects/demo" "a display name that is too long" "" 0 0 |}
           (mkProject "demo" "" "" 0 0) demo_project (Fault "invalid display name")
           (one_project []) eq_refl eq_refl eq_refl eq_refl eq_refl).
Defined.

(** X9.  A failure of [client.Put] makes [CreateProject] (on an absent key)
    and [UpdateProject] (on a stored record) return the internal condition
    that carries the storage error; the stored entities are as before. *)
Theorem put_fault_is_internal `{Collaborators} (f : err) (w : Datastore) :
  next_fault w = None ->
  next_fault (advance w) = None ->
  next_fault (advance (advance w)) = Some f ->
  (forall now request project,
     NewProjectFromProjectID (crProjectId request) = inl project ->
     entities w !! project_key (ResourceName project) = None ->
     fst (CreateProject now request w) = Return None (status_Error Internal (Error f))
     /\ entities (snd (CreateProject now request w)) = entities w)
  /\
  (forall now request project stored,
     NewProjectFromResourceName (msgName (urProject request)) = inl project ->
     entities w !! project_key (msgName (urProject request)) = Some stored ->
     validateFields (urProject request) = None ->
     fst (UpdateProject now request w) = Return None (status_Error Internal (Error f))
     /\ entities (snd (UpdateProject now request w)) = entities w).
Proof.
  intros Hclient Hread Hput. split.
  - intros now request project Hid Habsent.
    unfold CreateProject, newDataStoreClient. cbv beta iota zeta.
    rewrite Hclient, Hid.
    rewrite client_Get_absent by assumption.
    destruct (Project_Update now (crProject request) project) as [updated e].
    unfold client_Put. rewrite Hput. split; reflexivity.
  - intros now request project stored Hparse Hstored Hok.
    unfold UpdateProject, newDataStoreClient. cbv beta iota zeta.
    rewrite Hclient, Hparse, (ResourceName_parsed _ _ Hparse).
    rewrite (client_Get_present _ _ stored) by assumption.
    unfold Project_Update. rewrite Hok.
    unfold client_Put. rewrite Hput. split; reflexivity.
Qed.

Lemma put_fault_is_internal_witness :
  fst (CreateProject 300 {| crProjectId := "fresh";
                            crProject := mkRpcProject "" "Fresh" "" 0 0 |}
         (one_project [None; None; Some (Fault "quota exceeded")]))
  = Return None (status_Error Internal "quota exceeded").
Proof.
  destruct (put_fault_is_internal (Fault "quota exceeded")
              (one_project [None; None; Some (Fault "quota exceeded")])
              eq_refl eq_refl eq_refl) as [Hcreate _].
  exact (proj1 (Hcreate 300 {| crProjectId := "fresh";
                               crProject := mkRpcProject "" "Fresh" "" 0 0 |}
                  (mkProject "fresh" "" "" 0 0) eq_refl eq_refl)).
Defined.

(** X10.  When the existence read of [CreateProject] fails on a key that
    holds a record, the handler takes the key for absent: it writes a new
    record over the stored one, with the instant of the call as createTime,
    and returns success. *)
Theorem create_read_fault_overwrites `{Collaborators}
    (now : Time) (request : CreateProjectRequest) (project stored : Project)
    (f : err) (w : Datastore) :
  NewProjectFromProjectID (crProjectId request) = inl project ->
  validateFields (crProject request) = None ->
  entities w !! project_key (ResourceName project) = Some stored ->
  next_fault w = None ->
  next_fault (advance w) = Some f ->
  next_fault (advance (advance w)) = None ->
  let written := mkProject (crProjectId request) (msgDisplayName (crProject request))
                   (msgDescription (crProject request)) now now in
  fst (CreateProject now request w) = Return (Some (fst (Project_Message written))) None
  /\ entities (snd (CreateProject now request w))
     = <[project_key (ResourceName project) := written]> (entities w).
Proof.
  intros Hid Hok Hstored Hclient Hread Hput written.
  pose proof (NewProjectFromProjectID_id _ _ Hid) as Hp.
  unfold CreateProject, newDataStoreClient. cbv beta iota zeta.
  rewrite Hclient, Hid, (client_Get_fault _ _ _ f) by assumption.
  unfold Project_Update. rewrite Hok. subst project.
  unfold client_Put. rewrite Hput. split; reflexivity.
Qed.

Lemma create_read_fault_overwrites_witness :
  entities (snd (CreateProject 500
                   {| crProjectId := "demo";
                      crProject := mkRpcProject "" "Other" "" 0 0 |}
                   (one_project [None; Some (Fault "deadline exceeded")])))
    !! project_key "projects/demo"
  = Some (mkProject "demo" "Other" "" 500 500).
Proof.
  destruct (create_read_fault_overwrites (H := demo) 500
              {| crProjectId := "demo"; crProject := mkRpcProject "" "Other" "" 0 0 |}
              (mkProject "demo" "" "" 0 0) demo_project (Fault "deadline exceeded")
              (one_project [None; Some (Fault "deadline exceeded")])
              eq_refl eq_refl eq_refl eq_refl eq_refl eq_refl) as [_ Hwritten].
  rewrite Hwritten. apply lookup_insert_eq.
Defined.

(** ** Listing *)

Section LoopRounds.
Context `{Collaborators}.

Lemma calm_S (n : nat) (w : Datastore) :
  calm (S n) w -> next_fault w = None /\ calm n (advance w).
Proof.
  unfold calm, next_fault, advance. simpl.
  destruct (faults w) as [|f fs]; simpl.
  - intros _. split; [reflexivity|]. rewrite take_nil. constructor.
  - intros Hc. apply Forall_cons in Hc as [Hf Hc]. split; [exact Hf|exact Hc].
Qed.

Lemma calm_S_intro (n : nat) (w : Datastore) :
  next_fault w = None -> calm n (advance w) -> calm (S n) w.
Proof.
  unfold calm, next_fault, advance. simpl.
  destruct (faults w) as [|f fs]; simpl; [constructor|].
  intros Hf Hc. now constructor.
Qed.

Lemma calm_le (n : nat) : forall w, calm (S n) w -> calm n w.
Proof.
  induction n as [|n IH]; intros w Hc; [constructor|].
  apply calm_S in Hc as [Hf Hc]. apply calm_S_intro; [exact Hf|now apply IH].
Qed.

(** After [n] calm calls one more calm call finds no fault. *)
Lemma calm_next (n : nat) : forall w, calm (S n) w -> next_fault (advance_by n w) = None.
Proof.
  induction n as [|n IH]; intros w Hc; simpl.
  - now apply calm_S in Hc.
  - apply calm_S in Hc as [_ Hc]. now apply IH.
Qed.

Lemma quiet_calm (n : nat) (w : Datastore) : quiet w -> calm n w.
Proof. unfold quiet, calm. apply Forall_take. Qed.

Lemma advance_advance_by (n : nat) (w : Datastore) :
  advance (advance_by n w) = advance_by (S n) w.
Proof. revert w; induction n as [|n IH]; intros w; simpl; [reflexivity|apply IH]. Qed.

Lemma entities_advance_by (n : nat) (w : Datastore) :
  entities (advance_by n w) = entities w.
Proof. revert w; induction n as [|n IH]; intros w; simpl; [reflexivity|now rewrite IH]. Qed.

Lemma quiet_advance_by (n : nat) (w : Datastore) : quiet w -> quiet (advance_by n w).
Proof.
  revert w; induction n as [|n IH]; intros w Hq; simpl; [exact Hq|].
  apply IH. now apply quiet_advance.
Qed.

Lemma descendants_for_loop prg pageSize pend :
  forall pos acc w,
    descendants (exit_store (for_loop prg pageSize pend pos acc w)) = descendants w.
Proof.
  induction pend as [|project rest IH]; intros pos acc w; simpl.
  - now destruct (next_fault w).
  - destruct (next_fault w); [reflexivity|].
    destruct prg as [prg'|].
    + destruct (Eval prg' (eval_bindings project)) as [[[]|]|]; try reflexivity.
      * destruct (_ =? _); [reflexivity|]. now rewrite IH.
      * now rewrite IH.
    + destruct (_ =? _); [reflexivity|]. now rewrite IH.
Qed.

(** The rounds over a stretch of records that are delivered without fault,
    decided by the filter, and do not fill the page: the selected ones are
    appended, and the loop goes on behind the stretch. *)
Lemma for_loop_prefix prg pageSize pre rest :
  forall pos acc w,
    calm (length pre) w ->
    Forall (fun project => is_Some (selected prg project)) pre ->
    Z.of_nat (length acc) + Z.of_nat (length (List.filter (is_selected prg) pre))
      < pageSize ->
    for_loop prg pageSize (pre ++ rest) pos acc w
      = for_loop prg pageSize rest (pos + length pre)
          (acc ++ List.map (fun project => fst (Project_Message project))
                    (List.filter (is_selected prg) pre))
          (advance_by (length pre) w).
Proof.
  induction pre as [|project pre IH]; intros pos acc w Hcalm Hall Hroom.
  - simpl. now rewrite Nat.add_0_r, app_nil_r.
  - inversion Hall as [|? ? [b Hb] Hpre]; subst.
    apply calm_S in Hcalm as [Hf Hcalm].
    assert (Hsel : is_selected prg project = b)
      by (unfold is_selected; rewrite Hb; now destruct b).
    simpl in Hroom. rewrite Hsel in Hroom.
    simpl app. simpl List.filter. rewrite Hsel.
    simpl length. simpl advance_by.
    replace (pos + S (length pre))%nat with (S pos + length pre)%nat by lia.
    destruct b.
    + rewrite for_loop_keep by assumption.
      simpl in Hroom.
      destruct (Z.eqb_spec (Z.of_nat (length (acc ++ [fst (Project_Message project)])))
                  pageSize) as [He|Hne].
      * rewrite length_app in He. simpl in He. lia.
      * rewrite IH; try assumption.
        -- simpl List.map. now rewrite <- app_assoc.
        -- rewrite length_app. simpl. lia.
    + rewrite for_loop_skip by assumption. now apply IH.
Qed.

End LoopRounds.

(** X11.  [GetProject] and [ListProjects] only read: whatever the request
    and whatever faults the storage answers with, the stored entities and
    the records below the projects are as before. *)
Theorem reads_never_write `{Collaborators} (w : Datastore) :
  (forall request,
     entities (snd (GetProject request w)) = entities w /\
     descendants (snd (GetProject request w)) = descendants w)
  /\ (forall request,
     entities (snd (ListProjects request w)) = entities w /\
     descendants (snd (ListProjects request w)) = descendants w).
Proof.
  split.
  - intros request. unfold GetProject, newDataStoreClient. cbv beta iota zeta.
    destruct (next_fault w); [split; reflexivity|].
    destruct (NewProjectFromResourceName _) as [project|]; [|split; reflexivity].
    destruct (client_Get _ project (advance w)) as [[p e] w1] eqn:Hget.
    apply client_Get_inv in Hget as [-> _].
    destruct (decide _); [split; reflexivity|]. destruct e; split; reflexivity.
  - intros request. unfold ListProjects, newDataStoreClient. cbv beta iota zeta.
    destruct (next_fault w); [split; reflexivity|].
    destruct (queryApplyCursor _ _) as [q|]; [|split; reflexivity].
    destruct (createFilterOperator _ _) as [prg|]; [|split; reflexivity].
    pose proof (for_loop_entities prg (boundPageSize (lrPageSize request))
                  (pending (client_Run (Distinct q) (advance w)))
                  (position (client_Run (Distinct q) (advance w))) [] (advance w)) as He.
    pose proof (descendants_for_loop prg (boundPageSize (lrPageSize request))
                  (pending (client_Run (Distinct q) (advance w)))
                  (position (client_Run (Distinct q) (advance w))) [] (advance w)) as Hd.
    destruct (for_loop _ _ _ _ _ _) as [o w'|err it msgs w']; simpl in He, Hd.
    + split; assumption.
    + destruct (decide _); [split; assumption|].
      destruct (iteratorGetCursor _ _); split; assumption.
Qed.

Section Scans.
Context `{Collaborators}.
Variables (req : ListProjectsRequest) (w : Datastore) (q : Query) (prg : option Program).
Hypothesis Hclient : next_fault w = None.
Hypothesis Hcursor :
  queryApplyCursor (datastore_NewQuery ProjectEntityName) (lrPageToken req) = inl q.
Hypothesis Hfilter : createFilterOperator (lrFilter req) project_filter_args = inl prg.

(** Once the client, the cursor and the filter are there, the call is the
    loop over the scan followed by the two checks behind it. *)
Lemma ListProjects_scan :
  ListProjects req w
  = match for_loop prg (boundPageSize (lrPageSize req))
            (pending (client_Run (Distinct q) (advance w))) (qStart q) []
            (advance w) with
    | Returned o w' => (o, w')
    | Fallthrough err it projectMessages w' =>
        if decide (err <> None /\ err <> Some IteratorDone) then
          (Return None (internalError err), w')
        else
          match iteratorGetCursor it (Z.of_nat (length projectMessages)) with
          | inr e => (Return None (internalError (Some e)), w')
          | inl token =>
              (Return (Some (Build_ListProjectsResponse projectMessages token)) None, w')
          end
    end.
Proof.
  unfold ListProjects, newDataStoreClient. cbv beta iota zeta.
  now rewrite Hclient, Hcursor, Hfilter.
Qed.

(** X12.  A fault in the evaluation of the filter on a record aborts the
    list with the invalid-argument condition that carries the fault, also
    when records before it have already been gathered for the page. *)
Theorem eval_fault_aborts_list (prg' : Program) (pre rest : list Project)
    (project : Project) (e : err) :
  prg = Some prg' ->
  pending (client_Run (Distinct q) (advance w)) = pre ++ project :: rest ->
  calm (S (length pre)) (advance w) ->
  Forall (fun p => is_Some (selected prg p)) pre ->
  Z.of_nat (length (List.filter (is_selected prg) pre)) < boundPageSize (lrPageSize req) ->
  Eval prg' (eval_bindings project) = inr e ->
  ListProjects req w
    = (Return None (status_Error InvalidArgument (Error e)),
       advance_by (length pre + 2) w).
Proof.
  intros Hprg Hpend Hcalm Hall Hroom Heval.
  rewrite ListProjects_scan, Hpend.
  pose proof (calm_le _ _ Hcalm) as Hcalm'.
  pose proof (calm_next _ _ Hcalm) as Hnext.
  rewrite for_loop_prefix by (simpl; assumption || lia).
  subst prg. rewrite (for_loop_eval_fault _ _ _ _ _ _ _ e) by assumption.
  rewrite advance_advance_by. simpl advance_by.
  now replace (length pre + 2)%nat with (S (S (length pre))) by lia.
Qed.

(** X13.  A filter whose value on a record is not a boolean makes the
    handler panic at the type assertion: no response and no error are
    returned. *)
Theorem non_boolean_filter_panics (prg' : Program) (pre rest : list Project)
    (project : Project) (s : string) :
  prg = Some prg' ->
  pending (client_Run (Distinct q) (advance w)) = pre ++ project :: rest ->
  calm (S (length pre)) (advance w) ->
  Forall (fun p => is_Some (selected prg p)) pre ->
  Z.of_nat (length (List.filter (is_selected prg) pre)) < boundPageSize (lrPageSize req) ->
  Eval prg' (eval_bindings project) = inl (StringVal s) ->
  fst (ListProjects req w) = Panic.
Proof.
  intros Hprg Hpend Hcalm Hall Hroom Heval.
  rewrite ListProjects_scan, Hpend.
  pose proof (calm_le _ _ Hcalm) as Hcalm'.
  pose proof (calm_next _ _ Hcalm) as Hnext.
  rewrite for_loop_prefix by (simpl; assumption || lia).
  subst prg. now rewrite (for_loop_not_bool _ _ _ _ _ _ _ s).
Qed.

End Scans.

Lemma eval_fault_aborts_list_witness :
  ListProjects {| lrPageSize := 5; lrPageToken := ""; lrFilter := "availability == 'ga'" |}
    (two_projects [])
  = (Return None (status_Error InvalidArgument "filter: no such attribute availability"),
     two_projects []).
Proof.
  assert (Hpend : exists first rest,
            pending (client_Run (Distinct (datastore_NewQuery "Project"))
                       (advance (two_projects []))) = [] ++ first :: rest)
    by (vm_compute; eauto).
  destruct Hpend as (first & rest & Hpend).
  apply (eval_fault_aborts_list (H := demo)
           {| lrPageSize := 5; lrPageToken := ""; lrFilter := "availability == 'ga'" |}
           (two_projects []) (datastore_NewQuery "Project")
           (Some (FieldEquals "availability" "ga")) eq_refl eq_refl eq_refl
           (FieldEquals "availability" "ga") [] rest first
           (Fault "filter: no such attribute availability") eq_refl Hpend).
  - repeat constructor.
  - constructor.
  - reflexivity.
  - reflexivity.
Defined.

Lemma non_boolean_filter_panics_witness :
  fst (ListProjects (H := bare_fields)
         {| lrPageSize := 5; lrPageToken := ""; lrFilter := "project_id" |}
         (one_project []))
  = Panic.
Proof.
  apply (non_boolean_filter_panics (H := bare_fields)
           {| lrPageSize := 5; lrPageToken := ""; lrFilter := "project_id" |}
           (one_project []) (datastore_NewQuery "Project")
           (Some "project_id") eq_refl eq_refl eq_refl
           "project_id" [] [] demo_project "demo" eq_refl eq_refl).
  - repeat constructor.
  - constructor.
  - reflexivity.
  - reflexivity.
Defined.

(** ** Pages and cursors *)

Section Pagination.
Context `{Collaborators}.
Variables (req : ListProjectsRequest) (w : Datastore) (q : Query) (prg : option Program).
Hypothesis Hclient : next_fault w = None.
Hypothesis Hcursor :
  queryApplyCursor (datastore_NewQuery ProjectEntityName) (lrPageToken req) = inl q.
Hypothesis Hfilter : createFilterOperator (lrFilter req) project_filter_args = inl prg.

(** The call whose page is filled by a record of the scan. *)
Lemma ListProjects_full_page (pre rest : list Project) (project : Project) :
  pending (client_Run (Distinct q) (advance w)) = pre ++ project :: rest ->
  calm (S (length pre)) (advance w) ->
  Forall (fun p => is_Some (selected prg p)) pre ->
  selected prg project = Some true ->
  Z.of_nat (length (List.filter (is_selected prg) pre)) + 1
    = boundPageSize (lrPageSize req) ->
  let page := List.map (fun p => fst (Project_Message p)) (List.filter (is_selected prg) pre)
              ++ [fst (Project_Message project)] in
  ListProjects req w
    = (match iteratorGetCursor (mkIterator rest (S (qStart q + length pre)))
               (boundPageSize (lrPageSize req)) with
       | inl token => Return (Some (Build_ListProjectsResponse page token)) None
       | inr e => Return None (status_Error Internal (Error e))
       end,
       advance_by (length pre + 2) w).
Proof.
  intros Hpend Hcalm Hall Hsel Hfull page.
  pose proof (calm_le _ _ Hcalm) as Hcalm'.
  pose proof (calm_next _ _ Hcalm) as Hnext.
  rewrite (ListProjects_scan req w q prg) by assumption.
  rewrite Hpend, for_loop_prefix by (simpl; assumption || lia).
  rewrite for_loop_keep by assumption.
  cbn [app]. fold page.
  assert (Hlen : Z.of_nat (length page) = boundPageSize (lrPageSize req)).
  { unfold page. rewrite length_app, length_map. simpl. lia. }
  rewrite Hlen, Z.eqb_refl.
  rewrite decide_False by (intros [Hn _]; now apply Hn).
  fold page. rewrite ?Hlen.
  rewrite advance_advance_by. simpl advance_by.
  replace (length pre + 2)%nat with (S (S (length pre))) by lia.
  now destruct (iteratorGetCursor _ _).
Qed.

(** X14.  When the record that fills the page is reached, the scan stops
    there: the page holds the selected records up to and including that
    record, the cursor is asked of an iterator that stands right behind it,
    and no further storage call is made, so that whatever the storage would
    have answered next does not matter. *)
Theorem full_page_stops_scan (pre rest : list Project) (project : Project) :
  pending (client_Run (Distinct q) (advance w)) = pre ++ project :: rest ->
  calm (S (length pre)) (advance w) ->
  Forall (fun p => is_Some (selected prg p)) pre ->
  selected prg project = Some true ->
  Z.of_nat (length (List.filter (is_selected prg) pre)) + 1
    = boundPageSize (lrPageSize req) ->
  let page := List.map (fun p => fst (Project_Message p)) (List.filter (is_selected prg) pre)
              ++ [fst (Project_Message project)] in
  ListProjects req w
    = (match iteratorGetCursor (mkIterator rest (S (qStart q + length pre)))
               (boundPageSize (lrPageSize req)) with
       | inl token => Return (Some (Build_ListProjectsResponse page token)) None
       | inr e => Return None (status_Error Internal (Error e))
       end,
       advance_by (length pre + 2) w).
Proof. exact (ListProjects_full_page pre rest project). Qed.

(** X15.  When the scan is exhausted before the page is full, the page
    holds every selected record of the scan, the cursor is asked of an
    iterator with nothing pending, and one storage call more than there are
    records has been made for the scan. *)
Theorem exhausted_scan_returns_all (records : list Project) :
  pending (client_Run (Distinct q) (advance w)) = records ->
  calm (S (length records)) (advance w) ->
  Forall (fun p => is_Some (selected prg p)) records ->
  Z.of_nat (length (List.filter (is_selected prg) records))
    < boundPageSize (lrPageSize req) ->
  let page := List.map (fun p => fst (Project_Message p)) (List.filter (is_selected prg) records) in
  ListProjects req w
    = (match iteratorGetCursor (mkIterator [] (qStart q + length records))
               (Z.of_nat (length page)) with
       | inl token => Return (Some (Build_ListProjectsResponse page token)) None
       | inr e => Return None (status_Error Internal (Error e))
       end,
       advance_by (length records + 2) w).
Proof.
  intros Hpend Hcalm Hall Hroom page.
  pose proof (calm_le _ _ Hcalm) as Hcalm'.
  pose proof (calm_next _ _ Hcalm) as Hnext.
  rewrite (ListProjects_scan req w q prg) by assumption.
  rewrite Hpend, <- (app_nil_r records) at 1.
  rewrite for_loop_prefix by (simpl; assumption || lia).
  rewrite for_loop_done by assumption.
  cbn [app]. fold page.
  rewrite decide_False by (intros [_ ?]; congruence).
  rewrite advance_advance_by. simpl advance_by.
  replace (length records + 2)%nat with (S (S (length records))) by lia.
  now destruct (iteratorGetCursor _ _).
Qed.

(** X16.  Two calls in a row.  When the first call returned a full page
    with a token, and the token decodes to the position of the iterator the
    token was taken from, the second call scans exactly the records behind
    the last record of the first page: on a scan without faults (and a
    filter that decides these records) its page is made of the selected
    ones among them, so that no record is skipped and none is returned
    twice. *)
Theorem second_page_resumes_after_first
    (pre rest : list Project) (project : Project) (token : string)
    (req2 : ListProjectsRequest) (q2 : Query) :
  pending (client_Run (Distinct q) (advance w)) = pre ++ project :: rest ->
  calm (S (length pre)) (advance w) ->
  Forall (fun p => is_Some (selected prg p)) pre ->
  selected prg project = Some true ->
  Z.of_nat (length (List.filter (is_selected prg) pre)) + 1
    = boundPageSize (lrPageSize req) ->
  iteratorGetCursor (mkIterator rest (S (qStart q + length pre)))
    (boundPageSize (lrPageSize req)) = inl token ->
  lrPageToken req2 = token ->
  lrFilter req2 = lrFilter req ->
  queryApplyCursor (datastore_NewQuery ProjectEntityName) token = inl q2 ->
  qKind q2 = qKind q ->
  qStart q2 = S (qStart q + length pre) ->
  quiet (snd (ListProjects req w)) ->
  Forall (fun p => is_Some (selected prg p)) rest ->
  1 <= boundPageSize (lrPageSize req2) ->
  fst (ListProjects req w)
    = Return (Some (Build_ListProjectsResponse
                      (List.map (fun p => fst (Project_Message p)) (List.filter (is_selected prg) pre)
                       ++ [fst (Project_Message project)]) token)) None
  /\ pending (client_Run (Distinct q2) (advance (snd (ListProjects req w)))) = rest
  /\ exists it,
       fst (ListProjects req2 (snd (ListProjects req w)))
         = match iteratorGetCursor it
                   (Z.of_nat (length (page_of prg (boundPageSize (lrPageSize req2)) rest)))
           with
           | inl token2 =>
               Return (Some (Build_ListProjectsResponse
                               (page_of prg (boundPageSize (lrPageSize req2)) rest)
                               token2)) None
           | inr e => Return None (status_Error Internal (Error e))
           end.
Proof.
  intros Hpend Hcalm Hall Hsel Hfull Htoken Hreq2 Hfilter2 Hcursor2 Hkind Hstart
         Hquiet Hrest Hsize.
  pose proof (ListProjects_full_page pre rest project Hpend Hcalm Hall Hsel Hfull) as Hfirst.
  cbv zeta in Hfirst. rewrite Htoken in Hfirst. rewrite Hfirst in *. simpl fst. simpl snd in *.
  set (w1 := advance_by (length pre + 2) w) in *.
  assert (Hrecords : pending (client_Run (Distinct q2) (advance w1)) = rest).
  { unfold client_Run, Distinct, scan_order in *. simpl in *.
    unfold w1. rewrite entities_advance_by.
    rewrite Hstart, Hkind.
    replace (S (qStart q + length pre)) with (qStart q + S (length pre))%nat by lia.
    rewrite <- drop_drop, Hpend.
    change (pre ++ project :: rest) with (pre ++ [project] ++ rest).
    rewrite app_assoc.
    replace (S (length pre)) with (length (pre ++ [project]))
      by (rewrite length_app; simpl; lia).
    apply drop_app_length. }
  split; [reflexivity|]. split; [exact Hrecords|].
  assert (Hclient2 : next_fault w1 = None) by now apply quiet_next.
  destruct (for_loop_page prg (boundPageSize (lrPageSize req2)) rest (qStart q2) []
              (advance w1))
    as (err & it & w' & Hloop & Herr);
    [now apply quiet_advance|assumption|simpl; lia|].
  exists it.
  assert (Hc2 : queryApplyCursor (datastore_NewQuery ProjectEntityName)
                  (lrPageToken req2) = inl q2) by (rewrite Hreq2; exact Hcursor2).
  assert (Hf2 : createFilterOperator (lrFilter req2) project_filter_args = inl prg)
    by (rewrite Hfilter2; exact Hfilter).
  rewrite (ListProjects_scan req2 w1 q2 prg Hclient2 Hc2 Hf2).
  rewrite Hrecords, Hloop.
  rewrite decide_False
    by (intros [Hn Hd]; destruct Herr as [He|He]; [now apply Hn|now apply Hd]).
  cbn [app length]. rewrite Nat.sub_0_r.
  fold (page_of prg (boundPageSize (lrPageSize req2)) rest).
  destruct (iteratorGetCursor it _); reflexivity.
Qed.

End Pagination.

Lemma full_page_stops_scan_witness :
  ListProjects {| lrPageSize := 1; lrPageToken := ""; lrFilter := "" |}
    (two_projects [None; None; Some (Fault "too late to matter")])
  = (Return (Some (Build_ListProjectsResponse
                     [mkRpcProject "projects/alpha" "Alpha" "" 10 10] "c:|")) None,
     two_projects [Some (Fault "too late to matter")]).
Proof.
  assert (Hpend : pending (client_Run (Distinct (datastore_NewQuery "Project"))
                     (advance (two_projects
                                 [None; None; Some (Fault "too late to matter")])))
                  = [] ++ alpha_project :: [beta_project])
    by (vm_compute; reflexivity).
  assert (Hcalm : calm 1 (advance (two_projects
                                     [None; None; Some (Fault "too late to matter")])))
    by (repeat constructor).
  assert (Hall : Forall (fun p => is_Some (selected (H := demo) None p)) [])
    by constructor.
  exact (full_page_stops_scan (H := demo)
           {| lrPageSize := 1; lrPageToken := ""; lrFilter := "" |}
           (two_projects [None; None; Some (Fault "too late to matter")])
           (datastore_NewQuery "Project") None eq_refl eq_refl eq_refl
           [] [beta_project] alpha_project Hpend Hcalm Hall eq_refl eq_refl).
Defined.

Lemma exhausted_scan_returns_all_witness :
  ListProjects {| lrPageSize := 5; lrPageToken := ""; lrFilter := "project_id == 'beta'" |}
    (two_projects [])
  = (Return (Some (Build_ListProjectsResponse
                     [mkRpcProject "projects/beta" "Beta" "" 20 25] "c:||")) None,
     two_projects []).
Proof.
  assert (Hpend : pending (client_Run (Distinct (datastore_NewQuery "Project"))
                     (advance (two_projects [])))
                  = [alpha_project; beta_project])
    by (vm_compute; reflexivity).
  assert (Hcalm : calm 3 (advance (two_projects []))) by constructor.
  assert (Hall : Forall (fun p => is_Some (selected (H := demo)
                                     (Some (FieldEquals "project_id" "beta")) p))
                   [alpha_project; beta_project])
    by (repeat constructor; vm_compute; eauto).
  exact (exhausted_scan_returns_all (H := demo)
           {| lrPageSize := 5; lrPageToken := ""; lrFilter := "project_id == 'beta'" |}
           (two_projects []) (datastore_NewQuery "Project")
           (Some (FieldEquals "project_id" "beta")) eq_refl eq_refl eq_refl
           [alpha_project; beta_project] Hpend Hcalm Hall eq_refl).
Defined.

Lemma second_page_resumes_after_first_witness :
  fst (ListProjects {| lrPageSize := 1; lrPageToken := ""; lrFilter := "" |}
         (two_projects []))
    = Return (Some (Build_ListProjectsResponse
                      [mkRpcProject "projects/alpha" "Alpha" "" 10 10] "c:|")) None
  /\ exists it,
       fst (ListProjects {| lrPageSize := 1; lrPageToken := "c:|"; lrFilter := "" |}
              (snd (ListProjects {| lrPageSize := 1; lrPageToken := ""; lrFilter := "" |}
                      (two_projects []))))
       = match iteratorGetCursor it 1 with
         | inl token2 =>
             Return (Some (Build_ListProjectsResponse
                             [mkRpcProject "projects/beta" "Beta" "" 20 25] token2)) None
         | inr e => Return None (status_Error Internal (Error e))
         end.
Proof.
  assert (Hpend : pending (client_Run (Distinct (datastore_NewQuery "Project"))
                     (advance (two_projects [])))
                  = [] ++ alpha_project :: [beta_project])
    by (vm_compute; reflexivity).
  assert (Hcalm : calm 1 (advance (two_projects []))) by constructor.
  assert (Hnone : Forall (fun p => is_Some (selected (H := demo) None p)) [])
    by constructor.
  assert (Hrest : Forall (fun p => is_Some (selected (H := demo) None p)) [beta_project])
    by (repeat constructor; vm_compute; eauto).
  assert (Hquiet : quiet (snd (ListProjects (H := demo)
                                 {| lrPageSize := 1; lrPageToken := ""; lrFilter := "" |}
                                 (two_projects []))))
    by (vm_compute; constructor).
  assert (Hsize : 1 <= boundPageSize (H := demo) 1) by (vm_compute; discriminate).
  destruct (second_page_resumes_after_first (H := demo)
              {| lrPageSize := 1; lrPageToken := ""; lrFilter := "" |}
              (two_projects []) (datastore_NewQuery "Project") None
              eq_refl eq_refl eq_refl
              [] [beta_project] alpha_project "c:|"
              {| lrPageSize := 1; lrPageToken := "c:|"; lrFilter := "" |}
              (mkQuery "Project" 1 false)
              Hpend Hcalm Hnone eq_refl eq_refl eq_refl eq_refl eq_refl eq_refl
              eq_refl eq_refl Hquiet Hrest Hsize)
    as (Hfirst & _ & it & Hsecond).
  split; [exact Hfirst|]. exists it. exact Hsecond.
Defined.

(** ** Where the records of a page come from *)

Section PageOrigin.
Context `{Collaborators}.

(** Whatever way the loop is left through its condition or its [break], the
    messages it has added are those of records picked from the pending ones,
    in their order, each selected by the filter. *)
Lemma for_loop_picks prg pageSize pend :
  forall pos acc w err it msgs w',
    for_loop prg pageSize pend pos acc w = Fallthrough err it msgs w' ->
    exists picked,
      msgs = acc ++ List.map (fun p => fst (Project_Message p)) picked /\
      picked `sublist_of` pend /\
      Forall (fun p => selected prg p = Some true) picked.
Proof.
  induction pend as [|project rest IH]; intros pos acc w err it msgs w'.
  - simpl. destruct (next_fault w); intros [= <- <- <- <-];
      exists []; rewrite app_nil_r; repeat split; constructor.
  - destruct (next_fault w) as [f|] eqn:Hf.
    { rewrite (for_loop_fault_now _ _ _ _ _ _ f) by assumption.
      intros [= <- <- <- <-]. exists []. rewrite app_nil_r.
      repeat split; [apply sublist_nil_l|constructor]. }
    assert (Hkeep : selected prg project = Some true ->
      for_loop prg pageSize (project :: rest) pos acc w = Fallthrough err it msgs w' ->
      exists picked,
        msgs = acc ++ List.map (fun p => fst (Project_Message p)) picked /\
        picked `sublist_of` project :: rest /\
        Forall (fun p => selected prg p = Some true) picked).
    { intros Hsel. rewrite for_loop_keep by assumption.
      destruct (_ =? _).
      - intros [= <- <- <- <-]. exists [project].
        repeat split; [apply sublist_skip, sublist_nil_l|repeat constructor; assumption].
      - intros Hloop. apply IH in Hloop as (picked & -> & Hsub & Hall).
        exists (project :: picked). rewrite <- app_assoc.
        repeat split; [now apply sublist_skip|now constructor]. }
    destruct (selected prg project) as [[]|] eqn:Hsel.
    + now apply Hkeep.
    + rewrite for_loop_skip by assumption.
      intros Hloop. apply IH in Hloop as (picked & -> & Hsub & Hall).
      exists picked. repeat split; [now apply sublist_cons|assumption].
    + simpl. rewrite Hf. unfold selected in Hsel.
      destruct prg as [prg'|]; [|discriminate].
      destruct (Eval prg' (eval_bindings project)) as [[[]|]|]; discriminate.
Qed.

(** The records of a scan are stored entities of the scanned kind. *)
Lemma scan_order_stored (kind : string) (w : Datastore) (p : Project) :
  In p (scan_order kind w) ->
  exists k, entities w !! k = Some p /\ Kind k = kind.
Proof.
  unfold scan_order. rewrite in_map_iff.
  intros ([k p'] & Hp & Hin). simpl in Hp. subst p'.
  apply filter_In in Hin as [Hin Hkind]. simpl in Hkind.
  apply bool_decide_eq_true in Hkind.
  exists k. split; [|exact Hkind].
  apply elem_of_map_to_list. now apply list_elem_of_In.
Qed.

End PageOrigin.

(** X17.  A page returned by [ListProjects] never holds anything else than
    stored records: its messages are the messages of records taken, in scan
    order and without repetition of a position, from the scan behind the
    cursor; each of them is stored under a key of the scanned kind and was
    selected by the compiled filter.  This holds whatever faults occur. *)
Theorem page_comes_from_store `{Collaborators}
    (req : ListProjectsRequest) (w w' : Datastore)
    (resp : ListProjectsResponse) (e : error) :
  ListProjects req w = (Return (Some resp) e, w') ->
  exists q prg picked,
    queryApplyCursor (datastore_NewQuery ProjectEntityName) (lrPageToken req) = inl q /\
    createFilterOperator (lrFilter req) project_filter_args = inl prg /\
    Projects resp = List.map (fun p => fst (Project_Message p)) picked /\
    picked `sublist_of` drop (qStart q) (scan_order (qKind q) w) /\
    Forall (fun p => selected prg p = Some true /\
                     exists k, entities w !! k = Some p /\ Kind k = qKind q) picked.
Proof.
  unfold ListProjects, newDataStoreClient. cbv beta iota zeta.
  destruct (next_fault w); [discriminate|].
  destruct (queryApplyCursor _ _) as [q|]; [|discriminate].
  destruct (createFilterOperator _ _) as [prg|]; [|discriminate].
  destruct (for_loop _ _ _ _ _ _) as [o w1|err it msgs w1] eqn:Hloop.
  - apply for_loop_returned in Hloop as [->|[e' ->]]; discriminate.
  - destruct (decide _); [discriminate|].
    destruct (iteratorGetCursor _ _); [|discriminate].
    intros [= <- <- <-].
    apply for_loop_picks in Hloop as (picked & -> & Hsub & Hall).
    exists q, prg, picked. repeat split; try assumption.
    apply Forall_forall. intros p Hp. split.
    + revert p Hp. now apply Forall_forall.
    + apply scan_order_stored. apply list_elem_of_In.
      assert (Hin : p ∈ pending (client_Run (Distinct q) (advance w)))
        by (eapply elem_of_submseteq; [exact Hp|now apply sublist_submseteq]).
      simpl in Hin. eapply elem_of_submseteq; [exact Hin|].
      apply sublist_submseteq, sublist_drop.
Qed.

Lemma page_comes_from_store_witness :
  exists picked,
    [mkRpcProject "projects/alpha" "Alpha" "" 10 10]
      = List.map (fun p => fst (Project_Message p)) picked /\
    picked `sublist_of` [alpha_project; beta_project].
Proof.
  assert (Hrun : ListProjects (H := demo)
                   {| lrPageSize := 1; lrPageToken := ""; lrFilter := "" |}
                   (two_projects [])
                 = (Return (Some (Build_ListProjectsResponse
                                    [mkRpcProject "projects/alpha" "Alpha" "" 10 10]
                                    "c:|")) None,
                    two_projects []))
    by (vm_compute; reflexivity).
  destruct (page_comes_from_store _ _ _ _ _ Hrun)
    as (q & prg & picked & Hq & _ & Hpage & Hsub & _).
  injection Hq as <-.
  exists picked. split; [exact Hpage|].
  replace [alpha_project; beta_project]
    with (drop 0 (scan_order "Project" (two_projects [])))
    by (vm_compute; reflexivity).
  exact Hsub.
Defined.

(** * Further properties of the compile command *)

(** ** Splitting and joining names *)

Section SplitJoinMore.
Variable sep : ascii.

(** Splitting distributes over a separator in the middle. *)
Lemma Split_append (s t : string) :
  Cmd.Split (s +:+ String sep t) sep = Cmd.Split s sep ++ Cmd.Split t sep.
Proof.
  induction s as [|c s IH].
  - change (Cmd.Split (String sep t) sep = [EmptyString] ++ Cmd.Split t sep).
    simpl. now rewrite Ascii.eqb_refl.
  - change (Cmd.Split (String c (s +:+ String sep t)) sep
            = Cmd.Split (String c s) sep ++ Cmd.Split t sep).
    simpl. rewrite IH.
    destruct (Ascii.eqb c sep); [reflexivity|].
    destruct (Split_cons sep s) as (part & parts & ->). reflexivity.
Qed.

(** X18.  [strings.Split] and [strings.Join] on one separator are inverse to
    each other: joining the parts of a string gives the string, and
    splitting the join of a non-empty list of separator-free parts gives the
    list. *)
Theorem Split_Join_round_trip :
  (forall s, Cmd.Join (Cmd.Split s sep) (String sep EmptyString) = s)
  /\ (forall parts,
        parts <> [] ->
        Forall (fun part => ~ In sep (list_ascii_of_string part)) parts ->
        Cmd.Split (Cmd.Join parts (String sep EmptyString)) sep = parts).
Proof.
  split; [apply Join_Split|].
  induction parts as [|part parts IH]; intros Hne Hfree; [congruence|].
  apply Forall_cons in Hfree as [Hpart Hfree].
  destruct parts as [|part' parts].
  - simpl. now apply Split_without_sep.
  - change (Cmd.Split (part +:+ String sep (Cmd.Join (part' :: parts)
                                              (String sep EmptyString))) sep
            = part :: part' :: parts).
    rewrite Split_append, IH by (assumption || discriminate).
    now rewrite Split_without_sep.
Qed.

End SplitJoinMore.

Lemma Split_Join_round_trip_witness :
  Cmd.Split (Cmd.Join ["projects"; "p"; "apis"; ""] "/") "/"
  = ["projects"; "p"; "apis"; ""].
Proof.
  apply (proj2 (Split_Join_round_trip "/")).
  - discriminate.
  - repeat constructor; simpl; intuition discriminate.
Defined.

(** X19.  The parent of [parent/a/b], for any string [parent] and two
    slash-free segments [a] and [b], is [parent]; the parent of a name of
    just two segments is the empty string. *)
Theorem parent_of_child (parent a b : string) :
  ~ In "/"%char (list_ascii_of_string a) ->
  ~ In "/"%char (list_ascii_of_string b) ->
  Cmd.ParentNameFromResourceName (parent +:+ String "/" (a +:+ String "/" b))
    = Some parent
  /\ Cmd.ParentNameFromResourceName (a +:+ String "/" b) = Some EmptyString.
Proof.
  intros Ha Hb.
  assert (Htail : Cmd.Split (a +:+ String "/" b) "/" = [a; b])
    by (rewrite Split_append, !Split_without_sep by assumption; reflexivity).
  split.
  - unfold Cmd.ParentNameFromResourceName, Cmd.slice.
    rewrite Split_append, Htail, length_app. simpl length.
    replace ((0 <=? 0)
             && (0 <=? Z.of_nat (length (Cmd.Split parent "/") + 2) - 2)
             && (Z.of_nat (length (Cmd.Split parent "/") + 2) - 2
                 <=? Z.of_nat (length (Cmd.Split parent "/") + 2)))
      with true by (symmetry; rewrite !andb_true_iff, !Z.leb_le; lia).
    replace (Z.to_nat (Z.of_nat (length (Cmd.Split parent "/") + 2) - 2 - 0))
      with (length (Cmd.Split parent "/")) by lia.
    change (Z.to_nat 0) with 0%nat. rewrite drop_0, take_app_length.
    f_equal. apply Join_Split.
  - unfold Cmd.ParentNameFromResourceName. now rewrite Htail.
Qed.

Lemma parent_of_child_witness :
  Cmd.ParentNameFromResourceName "projects/p/apis/a/versions/v/specs/s"
  = Some "projects/p/apis/a/versions/v".
Proof.
  assert (Ha : ~ In "/"%char (list_ascii_of_string "specs"))
    by (simpl; intuition discriminate).
  assert (Hb : ~ In "/"%char (list_ascii_of_string "s"))
    by (simpl; intuition discriminate).
  exact (proj1 (parent_of_child "projects/p/apis/a/versions/v" "specs" "s" Ha Hb)).
Defined.

(** ** Compiling and uploading *)

(** A style cannot start with both version prefixes. *)
Lemma openapi_prefixes_exclusive (style : string) :
  String.prefix "openapi/v2" style = true ->
  String.prefix "openapi/v3" style = false.
Proof.
  intros Hv2. destruct (String.prefix "openapi/v3" style) eqn:Hv3; [|reflexivity].
  apply String.prefix_correct in Hv2, Hv3. simpl String.length in *. congruence.
Qed.

Section CompileMore.
Variables Document Info : Type.
Variable resourceNameOfSpec : list string -> string.
Variable client_GetSpec : Cmd.GetSpecRequest -> Cmd.Spec + err.
Variable client_CreateSpec : Cmd.CreateSpecRequest -> error.
Variable getBytesForSpec : Cmd.Spec -> list Byte.byte + err.
Variable ReadInfoFromBytes : string -> list Byte.byte -> Info + err.
Variables openapi_v2_NewDocument openapi_v3_NewDocument : Info -> Document + err.
Variable proto_Marshal : Document -> list Byte.byte * error.
Variable gzip : list Byte.byte -> list Byte.byte + err.
Variable connection_NewClient : error.
Variable SpecRegexp_FindAllStringSubmatch : string -> option (list (list string)).

Abbreviation compileSpec' :=
  (Cmd.compileSpec Document Info resourceNameOfSpec client_GetSpec client_CreateSpec
     getBytesForSpec ReadInfoFromBytes openapi_v2_NewDocument openapi_v3_NewDocument
     proto_Marshal gzip).
Abbreviation uploadBytesForSpec' :=
  (Cmd.uploadBytesForSpec Document client_CreateSpec proto_Marshal gzip).
Abbreviation compile_block' :=
  (Cmd.compile_block Document Info client_CreateSpec getBytesForSpec
     ReadInfoFromBytes proto_Marshal gzip).
Abbreviation Run' :=
  (Cmd.compileCmd_Run Document Info resourceNameOfSpec client_GetSpec client_CreateSpec
     getBytesForSpec ReadInfoFromBytes openapi_v2_NewDocument openapi_v3_NewDocument
     proto_Marshal gzip connection_NewClient SpecRegexp_FindAllStringSubmatch).

(** The two ways [uploadBytesForSpec] ends. *)
Lemma uploadBytesForSpec_outcomes (parent specID style : string) (document : Document)
    (log : list Cmd.CreateSpecRequest) :
  (forall buf,
     gzip (fst (proto_Marshal document)) = inl buf ->
     uploadBytesForSpec' parent specID style document log
       = (inl (client_CreateSpec
                 (Cmd.mkCreateSpecRequest parent specID (Cmd.mkSpec "" style buf))),
          log ++ [Cmd.mkCreateSpecRequest parent specID (Cmd.mkSpec "" style buf)]))
  /\ (forall e,
     gzip (fst (proto_Marshal document)) = inr e ->
     uploadBytesForSpec' parent specID style document log = (inr Cmd.FatalExit, log)).
Proof.
  split.
  - intros buf Hzip. unfold Cmd.uploadBytesForSpec.
    destruct (proto_Marshal document) as [messageData e]. simpl in Hzip.
    rewrite Hzip. unfold Cmd.bind, Cmd.send_CreateSpec.
    now destruct (client_CreateSpec _).
  - intros e Hzip. unfold Cmd.uploadBytesForSpec.
    destruct (proto_Marshal document) as [messageData e']. simpl in Hzip.
    now rewrite Hzip.
Qed.

(** X20.  [uploadBytesForSpec] sends one [CreateSpec] request, with the
    parent, the spec id, the style and the compressed bytes of the
    marshalled document, and returns the error of that request; an error of
    [proto.Marshal] is dropped and does not stop the upload.  When the
    compression fails, the process is left by [log.Fatal] and nothing is
    sent. *)
Theorem upload_sends_one_request (parent specID style : string) (document : Document)
    (log : list Cmd.CreateSpecRequest) :
  (forall buf,
     gzip (fst (proto_Marshal document)) = inl buf ->
     uploadBytesForSpec' parent specID style document log
       = (inl (client_CreateSpec
                 (Cmd.mkCreateSpecRequest parent specID (Cmd.mkSpec "" style buf))),
          log ++ [Cmd.mkCreateSpecRequest parent specID (Cmd.mkSpec "" style buf)]))
  /\ (forall e,
     gzip (fst (proto_Marshal document)) = inr e ->
     uploadBytesForSpec' parent specID style document log = (inr Cmd.FatalExit, log)).
Proof. exact (uploadBytesForSpec_outcomes parent specID style document log). Qed.

(** One block on a spec that is fetched, parsed and compiled, with a name
    that has a parent and bytes that compress. *)
Lemma compile_block_uploads spec NewDocument specID data info document parent buf log :
  getBytesForSpec spec = inl data ->
  ReadInfoFromBytes (Cmd.specName spec) data = inl info ->
  NewDocument info = inl document ->
  Cmd.ParentNameFromResourceName (Cmd.specName spec) = Some parent ->
  gzip (fst (proto_Marshal document)) = inl buf ->
  let request :=
    Cmd.mkCreateSpecRequest parent specID (Cmd.mkSpec "" (Cmd.specStyle spec) buf) in
  compile_block' spec NewDocument specID log
    = (inl match client_CreateSpec request with
           | Some e => inl (Some e)
           | None => inr tt
           end, log ++ [request]).
Proof.
  intros Hfetch Hinfo Hdoc Hparent Hzip request.
  unfold Cmd.compile_block. rewrite Hfetch, Hinfo, Hdoc, Hparent.
  unfold Cmd.orPanic, Cmd.bind, Cmd.ret at 1.
  rewrite (proj1 (uploadBytesForSpec_outcomes parent specID (Cmd.specStyle spec)
                    document log) buf Hzip).
  fold request. now destruct (client_CreateSpec request).
Qed.

(** X21.  On a spec of style [openapi/v2...] (or [openapi/v3...]) that is
    fetched, parsed and compiled, [compileSpec] sends exactly one
    [CreateSpec] request: to the parent of the spec's name, with the id
    [swagger.pb] (or [openapi.pb]), the spec's style and the compressed
    document; it returns the error of that request. *)
Theorem compileSpec_uploads_once
    (segments rest : list string) (spec : Cmd.Spec) (data buf : list Byte.byte)
    (info : Info) (document : Document) (parent : string)
    (log : list Cmd.CreateSpecRequest) :
  Cmd.slice segments 1 (Z.of_nat (length segments)) = Some rest ->
  client_GetSpec (Cmd.mkGetSpecRequest (resourceNameOfSpec rest) true) = inl spec ->
  getBytesForSpec spec = inl data ->
  ReadInfoFromBytes (Cmd.specName spec) data = inl info ->
  Cmd.ParentNameFromResourceName (Cmd.specName spec) = Some parent ->
  gzip (fst (proto_Marshal document)) = inl buf ->
  (String.prefix "openapi/v2" (Cmd.specStyle spec) = true ->
   openapi_v2_NewDocument info = inl document ->
   let request := Cmd.mkCreateSpecRequest parent "swagger.pb"
                    (Cmd.mkSpec "" (Cmd.specStyle spec) buf) in
   compileSpec' segments log = (inl (client_CreateSpec request), log ++ [request]))
  /\
  (String.prefix "openapi/v3" (Cmd.specStyle spec) = true ->
   openapi_v3_NewDocument info = inl document ->
   let request := Cmd.mkCreateSpecRequest parent "openapi.pb"
                    (Cmd.mkSpec "" (Cmd.specStyle spec) buf) in
   compileSpec' segments log = (inl (client_CreateSpec request), log ++ [request])).
Proof.
  intros Hrest Hget Hfetch Hinfo Hparent Hzip. split.
  - intros Hv2 Hdoc request.
    pose proof (openapi_prefixes_exclusive _ Hv2) as Hv3.
    unfold Cmd.compileSpec, Cmd.bind, Cmd.orPanic.
    rewrite Hrest. unfold Cmd.ret at 1. rewrite Hget, Hv2.
    rewrite (compile_block_uploads spec openapi_v2_NewDocument "swagger.pb"
               data info document parent buf log) by assumption.
    fold request. rewrite Hv3.
    now destruct (client_CreateSpec request).
  - intros Hv3 Hdoc request.
    assert (Hv2 : String.prefix "openapi/v2" (Cmd.specStyle spec) = false).
    { destruct (String.prefix "openapi/v2" (Cmd.specStyle spec)) eqn:Hv2; [|reflexivity].
      apply openapi_prefixes_exclusive in Hv2. congruence. }
    unfold Cmd.compileSpec, Cmd.bind, Cmd.orPanic.
    rewrite Hrest. unfold Cmd.ret at 1. rewrite Hget, Hv2.
    unfold Cmd.ret at 1. rewrite Hv3.
    rewrite (compile_block_uploads spec openapi_v3_NewDocument "openapi.pb"
               data info document parent buf log) by assumption.
    fold request. now destruct (client_CreateSpec request).
Qed.

(** X22.  An error of [GetSpec] is returned as it is, and a spec whose
    style starts with neither version prefix makes [compileSpec] return nil;
    in both cases nothing is sent. *)
Theorem compileSpec_without_work
    (segments rest : list string) (log : list Cmd.CreateSpecRequest) :
  Cmd.slice segments 1 (Z.of_nat (length segments)) = Some rest ->
  (forall e,
     client_GetSpec (Cmd.mkGetSpecRequest (resourceNameOfSpec rest) true) = inr e ->
     compileSpec' segments log = (inl (Some e), log))
  /\ (forall spec,
     client_GetSpec (Cmd.mkGetSpecRequest (resourceNameOfSpec rest) true) = inl spec ->
     String.prefix "openapi/v2" (Cmd.specStyle spec) = false ->
     String.prefix "openapi/v3" (Cmd.specStyle spec) = false ->
     compileSpec' segments log = (inl None, log)).
Proof.
  intros Hrest. split.
  - intros e Hget. unfold Cmd.compileSpec, Cmd.bind, Cmd.orPanic.
    rewrite Hrest. unfold Cmd.ret at 1. now rewrite Hget.
  - intros spec Hget Hv2 Hv3. unfold Cmd.compileSpec, Cmd.bind, Cmd.orPanic.
    rewrite Hrest. unfold Cmd.ret at 1. now rewrite Hget, Hv2, Hv3.
Qed.

(** X23.  Unlike a failure to fetch the bytes, a failure to read or to
    compile them is returned by [compileSpec] as its error; nothing is
    sent. *)
Theorem compileSpec_returns_parse_errors
    (segments rest : list string) (spec : Cmd.Spec) (data : list Byte.byte) (e : err)
    (log : list Cmd.CreateSpecRequest) :
  Cmd.slice segments 1 (Z.of_nat (length segments)) = Some rest ->
  client_GetSpec (Cmd.mkGetSpecRequest (resourceNameOfSpec rest) true) = inl spec ->
  getBytesForSpec spec = inl data ->
  (ReadInfoFromBytes (Cmd.specName spec) data = inr e ->
   String.prefix "openapi/v2" (Cmd.specStyle spec) = true
     \/ String.prefix "openapi/v3" (Cmd.specStyle spec) = true ->
   compileSpec' segments log = (inl (Some e), log))
  /\ (forall info,
        ReadInfoFromBytes (Cmd.specName spec) data = inl info ->
        (String.prefix "openapi/v2" (Cmd.specStyle spec) = true ->
         openapi_v2_NewDocument info = inr e ->
         compileSpec' segments log = (inl (Some e), log))
        /\ (String.prefix "openapi/v3" (Cmd.specStyle spec) = true ->
            openapi_v3_NewDocument info = inr e ->
            compileSpec' segments log = (inl (Some e), log))).
Proof.
  intros Hrest Hget Hfetch.
  assert (Hv23 : String.prefix "openapi/v3" (Cmd.specStyle spec) = true ->
                 String.prefix "openapi/v2" (Cmd.specStyle spec) = false).
  { intros Hv3. destruct (String.prefix "openapi/v2" (Cmd.specStyle spec)) eqn:Hv2;
      [|reflexivity]. apply openapi_prefixes_exclusive in Hv2. congruence. }
  split; [|intros info Hinfo; split].
  - intros Hinfo Hstyle. unfold Cmd.compileSpec, Cmd.bind, Cmd.orPanic.
    rewrite Hrest. unfold Cmd.ret at 1. rewrite Hget.
    destruct (String.prefix "openapi/v2" (Cmd.specStyle spec)) eqn:Hv2.
    + unfold Cmd.compile_block. now rewrite Hfetch, Hinfo.
    + destruct Hstyle as [Hv|Hv3]; [discriminate|].
      unfold Cmd.ret at 1. rewrite Hv3.
      unfold Cmd.compile_block. now rewrite Hfetch, Hinfo.
  - intros Hv2 Hdoc. unfold Cmd.compileSpec, Cmd.bind, Cmd.orPanic.
    rewrite Hrest. unfold Cmd.ret at 1. rewrite Hget, Hv2.
    unfold Cmd.compile_block. now rewrite Hfetch, Hinfo, Hdoc.
  - intros Hv3 Hdoc. unfold Cmd.compileSpec, Cmd.bind, Cmd.orPanic.
    rewrite Hrest. unfold Cmd.ret at 1. rewrite Hget, (Hv23 Hv3).
    unfold Cmd.ret at 1. rewrite Hv3.
    unfold Cmd.compile_block. now rewrite Hfetch, Hinfo, Hdoc.
Qed.

(** X24.  [compileSpec] panics on an empty list of segments, and it panics
    after a successful compilation when the name of the spec holds no
    slash, since the parent name cannot be taken; in both cases nothing is
    sent. *)
Theorem compileSpec_panics (log : list Cmd.CreateSpecRequest) :
  compileSpec' [] log = (inr Cmd.Panicked, log)
  /\ (forall segments rest spec data info document,
        Cmd.slice segments 1 (Z.of_nat (length segments)) = Some rest ->
        client_GetSpec (Cmd.mkGetSpecRequest (resourceNameOfSpec rest) true) = inl spec ->
        String.prefix "openapi/v2" (Cmd.specStyle spec) = true ->
        getBytesForSpec spec = inl data ->
        ReadInfoFromBytes (Cmd.specName spec) data = inl info ->
        openapi_v2_NewDocument info = inl document ->
        ~ In "/"%char (list_ascii_of_string (Cmd.specName spec)) ->
        compileSpec' segments log = (inr Cmd.Panicked, log)).
Proof.
  split; [reflexivity|].
  intros segments rest spec data info document Hrest Hget Hv2 Hfetch Hinfo Hdoc Hname.
  assert (Hparent : Cmd.ParentNameFromResourceName (Cmd.specName spec) = None).
  { unfold Cmd.ParentNameFromResourceName.
    now rewrite (Split_without_sep "/" _ Hname). }
  unfold Cmd.compileSpec, Cmd.bind, Cmd.orPanic.
  rewrite Hrest. unfold Cmd.ret at 1. rewrite Hget, Hv2.
  unfold Cmd.compile_block. rewrite Hfetch, Hinfo, Hdoc, Hparent.
  reflexivity.
Qed.

(** X25.  The command does nothing without an argument and nothing for a
    name that is no spec name; it leaves the process when no client can be
    made; and when [compileSpec] returns an error it prints the error and
    ends normally all the same, with the requests [compileSpec] has sent. *)
Theorem compileCmd_Run_outcomes (log : list Cmd.CreateSpecRequest) :
  Run' [] log = (inl [], log)
  /\ (forall name args e,
        connection_NewClient = Some e ->
        Run' (name :: args) log = (inr Cmd.FatalExit, log))
  /\ (forall name args,
        connection_NewClient = None ->
        SpecRegexp_FindAllStringSubmatch name = None ->
        Run' (name :: args) log = (inl [], log))
  /\ (forall name args segments others e log',
        connection_NewClient = None ->
        SpecRegexp_FindAllStringSubmatch name = Some (segments :: others) ->
        compileSpec' segments log = (inl (Some e), log') ->
        Run' (name :: args) log = (inl [Error e], log')).
Proof.
  repeat split.
  - intros name args e Hclient. unfold Cmd.compileCmd_Run. now rewrite Hclient.
  - intros name args Hclient Hmatch. unfold Cmd.compileCmd_Run.
    now rewrite Hclient, Hmatch.
  - intros name args segments others e log' Hclient Hmatch Hcompile.
    unfold Cmd.compileCmd_Run. rewrite Hclient, Hmatch.
    unfold Cmd.bind, Cmd.orPanic, Cmd.ret. cbn [head]. cbv beta iota.
    now rewrite Hcompile.
Qed.

End CompileMore.

Lemma upload_sends_one_request_witness :
  Cmd.uploadBytesForSpec (list Byte.byte) (fun _ => None)
    (fun document => (document, Some (Fault "marshal: required field missing"))) inl
    "projects/p/apis/a/versions/v" "swagger.pb" "openapi/v2" [Byte.x78] []
  = (inl None,
     [Cmd.mkCreateSpecRequest "projects/p/apis/a/versions/v" "swagger.pb"
        (Cmd.mkSpec "" "openapi/v2" [Byte.x78])]).
Proof.
  exact (proj1 (upload_sends_one_request (list Byte.byte) (fun _ => None)
                  (fun document => (document, Some (Fault "marshal: required field missing")))
                  inl "projects/p/apis/a/versions/v" "swagger.pb" "openapi/v2"
                  [Byte.x78] [])
           [Byte.x78] eq_refl).
Defined.

Lemma compileSpec_uploads_once_witness :
  demo_compileSpec (fun spec => inl (Cmd.specContents spec)) ["specs/s3"; "s3"] []
  = (inl None,
     [Cmd.mkCreateSpecRequest "projects/p/apis/a/versions/v" "openapi.pb"
        (Cmd.mkSpec "" "openapi/v3+gzip" [Byte.x79])]).
Proof.
  refine (proj2 (compileSpec_uploads_once (list Byte.byte) (list Byte.byte)
                   (fun rest => Cmd.Join rest "/") demo_GetSpec (fun _ => None)
                   (fun spec => inl (Cmd.specContents spec)) demo_ReadInfoFromBytes
                   inl inl
                   (fun document => (document, Some (Fault "marshal: required field missing")))
                   inl
                   ["specs/s3"; "s3"] ["s3"] demo_spec_v3 [Byte.x79] [Byte.x79]
                   [Byte.x79] [Byte.x79] "projects/p/apis/a/versions/v" []
                   eq_refl eq_refl eq_refl eq_refl eq_refl eq_refl)
            eq_refl eq_refl).
Defined.

Lemma compileSpec_without_work_witness :
  demo_compileSpec (fun spec => inl (Cmd.specContents spec)) ["specs/pb"; "pb"] []
    = (inl None, [])
  /\ demo_compileSpec (fun spec => inl (Cmd.specContents spec)) ["specs/none"; "none"] []
    = (inl (Some (StatusErr NotFound "not found")), []).
Proof.
  split.
  - exact (proj2 (compileSpec_without_work (list Byte.byte) (list Byte.byte)
                    (fun rest => Cmd.Join rest "/") demo_GetSpec (fun _ => None)
                    (fun spec => inl (Cmd.specContents spec)) demo_ReadInfoFromBytes
                    inl inl
                    (fun document =>
                       (document, Some (Fault "marshal: required field missing")))
                    inl ["specs/pb"; "pb"] ["pb"] [] eq_refl)
             demo_spec_proto eq_refl eq_refl eq_refl).
  - exact (proj1 (compileSpec_without_work (list Byte.byte) (list Byte.byte)
                    (fun rest => Cmd.Join rest "/") demo_GetSpec (fun _ => None)
                    (fun spec => inl (Cmd.specContents spec)) demo_ReadInfoFromBytes
                    inl inl
                    (fun document =>
                       (document, Some (Fault "marshal: required field missing")))
                    inl ["specs/none"; "none"] ["none"] [] eq_refl)
             (StatusErr NotFound "not found") eq_refl).
Defined.

Lemma compileSpec_returns_parse_errors_witness :
  demo_compileSpec (fun spec => inl []) ["specs/s2"; "s2"] []
  = (inl (Some (Fault "no document")), []).
Proof.
  exact (proj1 (compileSpec_returns_parse_errors (list Byte.byte) (list Byte.byte)
                  (fun rest => Cmd.Join rest "/") demo_GetSpec (fun _ => None)
                  (fun spec => inl []) demo_ReadInfoFromBytes inl inl
                  (fun document =>
                     (document, Some (Fault "marshal: required field missing")))
                  inl ["specs/s2"; "s2"] ["s2"] demo_spec_v2 [] (Fault "no document") []
                  eq_refl eq_refl eq_refl)
           eq_refl (or_introl eq_refl)).
Defined.

Lemma compileSpec_panics_witness :
  demo_compileSpec (fun spec => inl (Cmd.specContents spec)) ["specs/orphan"; "orphan"] []
  = (inr Cmd.Panicked, []).
Proof.
  assert (Hname : ~ In "/"%char (list_ascii_of_string (Cmd.specName demo_spec_orphan)))
    by (simpl; intuition discriminate).
  exact (proj2 (compileSpec_panics (list Byte.byte) (list Byte.byte)
                  (fun rest => Cmd.Join rest "/") demo_GetSpec (fun _ => None)
                  (fun spec => inl (Cmd.specContents spec)) demo_ReadInfoFromBytes
                  inl inl
                  (fun document =>
                     (document, Some (Fault "marshal: required field missing")))
                  inl [])
           ["specs/orphan"; "orphan"] ["orphan"] demo_spec_orphan [Byte.x78] [Byte.x78]
           [Byte.x78] eq_refl eq_refl eq_refl eq_refl eq_refl eq_refl Hname).
Defined.

Lemma compileCmd_Run_outcomes_witness :
  demo_Run ["specs/none"] [] = (inl ["not found"], [])
  /\ demo_Run ["projects/p"] [] = (inl [], []).
Proof.
  destruct (compileCmd_Run_outcomes (list Byte.byte) (list Byte.byte)
              (fun rest => Cmd.Join rest "/") demo_GetSpec (fun _ => None)
              (fun spec => inl (Cmd.specContents spec)) demo_ReadInfoFromBytes inl inl
              (fun document => (document, Some (Fault "marshal: required field missing")))
              inl None
              (fun name => if String.prefix "specs/" name
                           then Some [[name; String.substring 6 (String.length name - 6) name]]
                           else None) [])
    as (_ & _ & Hnomatch & Herror).
  split.
  - exact (Herror "specs/none" [] ["specs/none"; "none"] []
             (StatusErr NotFound "not found") [] eq_refl eq_refl eq_refl).
  - exact (Hnomatch "projects/p" [] eq_refl eq_refl).
Defined.
